(** * btclib: varint codec and address-based message signatures

    A shallow embedding of [btclib/varint.py] and [btclib/signmessage.py].
    Python integers are [Z], [bytes] values are lists of [Byte.byte], a
    [str] is the list of its Unicode code points, and a raised exception
    is the left injection of [sum exn], threaded with ExtLib's either
    monad. *)

From Stdlib Require Import ZArith List String Lia Bool.
From Stdlib Require Import Strings.Byte Strings.HexString Numbers.DecimalString.
From ExtLib Require Import Structures.Monad Structures.MonadExc.
From ExtLib Require Import Data.Monads.EitherMonad.
Import ListNotations.
Import MonadNotation.
Local Open Scope string_scope.
Local Open Scope list_scope.
Local Open Scope monad_scope.
Local Open Scope Z_scope.

(** ** The Python runtime the two modules rely on *)

Module Py.

(** Exception classes that the modelled code raises itself, and
    [OtherError] for whatever class a collaborator raises.  All of them
    derive from Python's [Exception]. *)
Inductive exn_class : Type :=
| ValueError
| IndexError
| OverflowError
| UnicodeEncodeError
| OtherError (name : string).

Record exn : Type := Exn { exn_cls : exn_class; exn_msg : string }.

(** A computation that returns an [A] or raises. *)
Definition result (A : Type) : Type := sum exn A.

#[global] Instance Monad_result : Monad result := Monad_either exn.
#[global] Instance Exc_result : MonadExc exn result := Exception_either exn.

Definition bytes : Type := list byte.

Definition int_of_byte (b : byte) : Z := Z.of_N (Byte.to_N b).

Definition byte_of_int (i : Z) : byte :=
  match Byte.of_N (Z.to_N (i mod 256)) with
  | Some b => b
  | None => x00
  end.

(** [bytes(l)] for a list of ints. *)
Fixpoint bytes_of_ints (l : list Z) : result bytes :=
  match l with
  | [] => ret []
  | i :: l' =>
      if (0 <=? i) && (i <? 256)
      then bs <- bytes_of_ints l' ;; ret (byte_of_int i :: bs)
      else raise (Exn ValueError "bytes must be in range(0, 256)")
  end.

(** [l[i]] on a list and [b[i]] on [bytes], for [i >= 0]. *)
Definition getitem {A : Type} (l : list A) (i : nat) : result A :=
  match nth_error l i with
  | Some x => ret x
  | None => raise (Exn IndexError "list index out of range")
  end.

Definition bytes_getitem (b : bytes) (i : nat) : result byte :=
  match nth_error b i with
  | Some x => ret x
  | None => raise (Exn IndexError "index out of range")
  end.

(** [b[lo:hi]] and [b[lo:]] for non-negative bounds. *)
Definition slice {A : Type} (l : list A) (lo hi : nat) : list A :=
  firstn (hi - lo) (skipn lo l).

Definition slice_from {A : Type} (l : list A) (lo : nat) : list A :=
  skipn lo l.

Inductive byteorder : Type := little | big.

(** The [n] least significant base-256 digits of [i], least first. *)
Fixpoint le_digits (n : nat) (i : Z) : bytes :=
  match n with
  | O => []
  | S n' => byte_of_int (i mod 256) :: le_digits n' (i / 256)
  end.

Fixpoint le_value (b : bytes) : Z :=
  match b with
  | [] => 0
  | x :: b' => int_of_byte x + 256 * le_value b'
  end.

(** [i.to_bytes(length, byteorder)], unsigned. *)
Definition to_bytes (i : Z) (length : nat) (bo : byteorder) : result bytes :=
  if i <? 0
  then raise (Exn OverflowError "can't convert negative int to unsigned")
  else if 256 ^ Z.of_nat length <=? i
  then raise (Exn OverflowError "int too big to convert")
  else ret match bo with
           | little => le_digits length i
           | big => rev (le_digits length i)
           end.

(** [int.from_bytes(b, byteorder)], unsigned. *)
Definition from_bytes (b : bytes) (bo : byteorder) : Z :=
  match bo with
  | little => le_value b
  | big => le_value (rev b)
  end.

(** [str(n)] and [hex(i)] as they appear inside f-strings. *)
Definition str_of_nat (n : nat) : string :=
  NilZero.string_of_uint (Nat.to_uint n).

Definition str_of_int (i : Z) : string :=
  NilZero.string_of_int (Z.to_int i).

Definition hex (i : Z) : string := HexString.of_Z i.

(** A Python [str]: its code points. *)
Definition str : Type := list Z.

(** An ASCII literal as a [str]. *)
Definition literal (s : string) : str :=
  map int_of_byte (list_byte_of_string s).

(** [chr(i)].  The argument is first converted to a C [int], which
    overflows outside -2^31 .. 2^31 - 1. *)
Definition chr (i : Z) : result Z :=
  if i <? - 0x80000000 then
    raise (Exn OverflowError "signed integer is less than minimum")
  else if 0x7fffffff <? i then
    raise (Exn OverflowError "signed integer is greater than maximum")
  else if (0 <=? i) && (i <? 0x110000) then ret i
  else raise (Exn ValueError "chr() arg not in range(0x110000)").

(** UTF-8 encoding of one code point; lone surrogates are refused. *)
Definition utf8_char (c : Z) : result bytes :=
  if c <? 0x80 then ret [byte_of_int c]
  else if c <? 0x800 then
    ret [byte_of_int (Z.lor 0xC0 (Z.shiftr c 6));
         byte_of_int (Z.lor 0x80 (Z.land c 0x3F))]
  else if (0xD800 <=? c) && (c <=? 0xDFFF) then
    raise (Exn UnicodeEncodeError
             "'utf-8' codec can't encode character: surrogates not allowed")
  else if c <? 0x10000 then
    ret [byte_of_int (Z.lor 0xE0 (Z.shiftr c 12));
         byte_of_int (Z.lor 0x80 (Z.land (Z.shiftr c 6) 0x3F));
         byte_of_int (Z.lor 0x80 (Z.land c 0x3F))]
  else
    ret [byte_of_int (Z.lor 0xF0 (Z.shiftr c 18));
         byte_of_int (Z.lor 0x80 (Z.land (Z.shiftr c 12) 0x3F));
         byte_of_int (Z.lor 0x80 (Z.land (Z.shiftr c 6) 0x3F));
         byte_of_int (Z.lor 0x80 (Z.land c 0x3F))].

(** [s.encode()], the default being UTF-8. *)
Fixpoint encode (s : str) : result bytes :=
  match s with
  | [] => ret []
  | c :: s' => b <- utf8_char c ;; bs <- encode s' ;; ret (b ++ bs)
  end.

(** [a == b] on [bytes]. *)
Fixpoint bytes_eqb (a b : bytes) : bool :=
  match a, b with
  | [], [] => true
  | x :: a', y :: b' => Byte.eqb x y && bytes_eqb a' b'
  | _, _ => false
  end.

(** An [io.BytesIO]: the bytes not yet read. *)
Definition BytesIO : Type := bytes.

(** [stream.read(n)]: up to [n] bytes, and the stream after them. *)
Definition read (n : nat) (stream : BytesIO) : bytes * BytesIO :=
  (firstn n stream, skipn n stream).

End Py.

Import Py.

(** ** btclib/varint.py *)

Module varint.

Section Decode.

(** [utils.bytes_from_octets], which turns a hexadecimal [str] into
    [bytes]; it belongs to a module that is not modelled here. *)
Variable bytes_from_octets : str -> result bytes.

(** The three shapes of [decode]'s argument. *)
Inductive octets_or_stream : Type :=
| Str (s : str)
| Bytes (b : bytes)
| Stream (s : BytesIO).

(** The body of [decode] once [stream] is a binary stream: the
    integer read, and the stream after it. *)
Definition decode_stream (stream : BytesIO) : result (Z * BytesIO) :=
  let '(b, stream) := read 1 stream in
  b0 <- bytes_getitem b 0 ;;
  let i := int_of_byte b0 in
  if i =? 0xfd then
    let '(b, stream) := read 2 stream in
    ret (from_bytes b little, stream)
  else if i =? 0xfe then
    let '(b, stream) := read 4 stream in
    ret (from_bytes b little, stream)
  else if i =? 0xff then
    let '(b, stream) := read 8 stream in
    ret (from_bytes b little, stream)
  else
    ret (i, stream).

Definition decode (stream : octets_or_stream) : result Z :=
  stream <- match stream with
            | Str s => b <- bytes_from_octets s ;; ret (b : BytesIO)
            | Bytes b => ret (b : BytesIO)
            | Stream s => ret s
            end ;;
  r <- decode_stream stream ;;
  ret (fst r).

End Decode.

Definition encode (i : Z) : result bytes :=
  if i <=? 0xfc then
    bytes_of_ints [i]
  else if i <=? 0xffff then
    b <- to_bytes i 2 little ;; ret (xfd :: b)
  else if i <=? 0xffffffff then
    b <- to_bytes i 4 little ;; ret (xfe :: b)
  else if i <=? 0xffffffffffffffff then
    b <- to_bytes i 8 little ;; ret (xff :: b)
  else
    raise (Exn ValueError
             ("integer too large (" ++ hex i
              ++ ") for varint encoding")%string).

End varint.

(** ** btclib/signmessage.py *)

Module signmessage.

(** A point of the curve, as the code has it: a pair of ints. *)
Definition Point : Type := (Z * Z)%type.

Definition Point_eqb (P Q : Point) : bool :=
  (fst P =? fst Q) && (snd P =? snd Q).

(** A [hashlib] object: the bytes fed to it so far. *)
Record hashobj : Type := Hash { fed : bytes }.

Definition update (m : hashobj) (data : bytes) : hashobj :=
  Hash (fed m ++ data).

(** What [signmessage.py] imports from the rest of btclib and from
    the standard library.  None of it is defined in this module, so it
    is taken as an interface; every function that can raise returns a
    [result]. *)
Class Imports : Type := {
  Curve : Type;
  address : Type;
  b64text : Type;
  hrp : Type;
  secp256k1 : Curve;
  (** [ec.n], the order of the generator. *)
  order : Curve -> Z;
  (** [hashlib.sha256], as the digest of all the bytes fed. *)
  sha256 : bytes -> bytes;
  (** [curve.mult(ec, k)]. *)
  mult : Curve -> Z -> result Point;
  (** [utils.octets_from_point(ec, P, compressed)]. *)
  octets_from_point : Curve -> Point -> bool -> result bytes;
  (** [utils.h160(b)]. *)
  h160 : bytes -> bytes;
  (** [wifaddress.p2pkh_address(pk, network)]. *)
  p2pkh_address : bytes -> str -> result address;
  (** [wifaddress.h160_from_address(addr)]. *)
  h160_from_address : address -> result bytes;
  (** [dsa.sign(ec, hf, msg, prvkey)]. *)
  sign : Curve -> (bytes -> bytes) -> bytes -> Z -> result (Z * Z);
  (** [dsa.pubkey_recovery(ec, hf, msg, sig)]. *)
  pubkey_recovery :
    Curve -> (bytes -> bytes) -> bytes -> Z * Z -> result (list Point);
  (** [segwitaddress.decode(addr)]. *)
  decode : address -> result (hrp * Z * list Z);
  (** [base64.b64encode] and [base64.b64decode]. *)
  b64encode : bytes -> b64text;
  b64decode : b64text -> result bytes
}.

Section Functions.

Context {I : Imports}.

Definition hf : bytes -> bytes := sha256.

Definition digest (m : hashobj) : bytes := hf (fed m).

Definition prefix : bytes :=
  x18 :: list_byte_of_string "Bitcoin Signed Message:" ++ [x0a].

Definition _magic_hash (msg : str) : result bytes :=
  let m := Hash [] in
  let m := update m prefix in
  c <- chr (Z.of_nat (List.length msg)) ;;
  let message := c :: msg in
  data <- encode message ;;
  let m := update m data in
  ret (digest m).

(** The [for] loop of [msgsign], from index [i] on, over the
    candidates not yet visited. *)
Fixpoint msgsign_loop (pubkey : Point) (compressed : bool)
    (addr : address) (bytes_sig : bytes)
    (pubkeys : list Point) (i : Z) : result (address * b64text) :=
  match pubkeys with
  | [] => raise (Exn ValueError "Public key not recovered")
  | P :: pubkeys' =>
      if Point_eqb P pubkey then
        let rf := 27 + i in
        let rf := if compressed then rf + 4 else rf in
        flag <- bytes_of_ints [rf] ;;
        ret (addr, b64encode (flag ++ bytes_sig))
      else
        msgsign_loop pubkey compressed addr bytes_sig pubkeys' (i + 1)
  end.

Definition msgsign (msg : str) (prvkey : Z) (compressed : bool)
    (network : str) : result (address * b64text) :=
  pubkey <- mult secp256k1 prvkey ;;
  pk <- octets_from_point secp256k1 pubkey compressed ;;
  addr <- p2pkh_address pk network ;;
  magic_msg <- _magic_hash msg ;;
  sig <- sign secp256k1 hf magic_msg prvkey ;;
  pubkeys <- pubkey_recovery secp256k1 hf magic_msg sig ;;
  r_bytes <- to_bytes (fst sig) 32 big ;;
  s_bytes <- to_bytes (snd sig) 32 big ;;
  let bytes_sig := r_bytes ++ s_bytes in
  msgsign_loop pubkey compressed addr bytes_sig pubkeys 0.

Definition _verify (msg : str) (addr : address) (sig : b64text)
    : result bool :=
  sig <- b64decode sig ;;
  if negb (List.length sig =? 65)%nat then
    raise (Exn ValueError
             ("Wrong encoding length: " ++ str_of_nat (List.length sig)
              ++ " instead of 65")%string)
  else
  let r := from_bytes (slice sig 1 33) big in
  let s := from_bytes (slice_from sig 33) big in
  magic_msg <- _magic_hash msg ;;
  pubkeys <- pubkey_recovery secp256k1 hf magic_msg (r, s) ;;
  rf0 <- bytes_getitem sig 0 ;;
  let rf := int_of_byte rf0 in
  if rf <? 27 then
    raise (Exn ValueError
             ("Invalid recovery flag: " ++ str_of_int rf)%string)
  else
  pk <- (if rf <? 31 then
           let i := rf - 27 in
           P <- getitem pubkeys (Z.to_nat i) ;;
           octets_from_point secp256k1 P false
         else
           let i := rf - 31 in
           P <- getitem pubkeys (Z.to_nat i) ;;
           octets_from_point secp256k1 P true) ;;
  if rf <? 35 then
    a <- h160_from_address addr ;;
    ret (bytes_eqb (h160 pk) a)
  else
  if rf <? 38 then
    d <- decode addr ;;
    let '(_, wv, wp) := d in
    if negb (wv =? 0) then
      raise (Exn ValueError
               ("Invalid witness version: " ++ str_of_int wv)%string)
    else
      w <- bytes_of_ints wp ;;
      ret (bytes_eqb (h160 pk) w)
  else
  if rf <? 42 then
    let scriptPubkey := [x00; x14] ++ h160 pk in
    a <- h160_from_address addr ;;
    ret (bytes_eqb (h160 scriptPubkey) a)
  else
    raise (Exn ValueError
             ("Invalid recovery flag: " ++ str_of_int rf)%string).

(** [try: return _verify(...)] / [except Exception: return False]. *)
Definition verify (msg : str) (addr : address) (sig : b64text) : bool :=
  match _verify msg addr sig with
  | inr b => b
  | inl _ => false
  end.

End Functions.

End signmessage.

(** ** The specification's wording, for comparison with the code *)

Module Spec.

(** The bytes to be hashed as the specification describes them: the
    fixed header, a single byte holding the length of the message, the
    bytes of the message. *)
Definition magic_payload (msg : str) : result bytes :=
  data <- encode msg ;;
  ret (signmessage.prefix
       ++ [byte_of_int (Z.of_nat (List.length msg))] ++ data).

(** Verification as the recovery-flag table of the specification
    prescribes it: flags 27-30 are P2PKH with the uncompressed key, 31-34
    P2PKH with the compressed key, 35-38 P2WPKH-P2SH, 39-42 P2WPKH
    (bech32), each with key_id counted from the start of its range. *)
Definition _verify_by_table {I : signmessage.Imports}
    (msg : str) (addr : signmessage.address) (sig : signmessage.b64text)
    : result bool :=
  sig <- signmessage.b64decode sig ;;
  if negb (List.length sig =? 65)%nat then
    raise (Exn ValueError "Wrong encoding length")
  else
  let r := from_bytes (slice sig 1 33) big in
  let s := from_bytes (slice_from sig 33) big in
  magic_msg <- signmessage._magic_hash msg ;;
  pubkeys <- signmessage.pubkey_recovery signmessage.secp256k1
               signmessage.hf magic_msg (r, s) ;;
  rf0 <- bytes_getitem sig 0 ;;
  let rf := int_of_byte rf0 in
  if (rf <? 27) || (42 <? rf) then
    raise (Exn ValueError "Invalid recovery flag")
  else
  let key_id := (rf - 27) mod 4 in
  P <- getitem pubkeys (Z.to_nat key_id) ;;
  pk <- signmessage.octets_from_point signmessage.secp256k1 P (31 <=? rf) ;;
  if rf <? 35 then
    a <- signmessage.h160_from_address addr ;;
    ret (bytes_eqb (signmessage.h160 pk) a)
  else if rf <? 39 then
    a <- signmessage.h160_from_address addr ;;
    ret (bytes_eqb
           (signmessage.h160 ([x00; x14] ++ signmessage.h160 pk)) a)
  else
    d <- signmessage.decode addr ;;
    let '(_, wv, wp) := d in
    if negb (wv =? 0) then raise (Exn ValueError "Invalid witness version")
    else w <- bytes_of_ints wp ;; ret (bytes_eqb (signmessage.h160 pk) w).

End Spec.

(** ** An executable stand-in for the collaborators

    Small total functions with the shapes of the imported ones, so that
    [msgsign] and [verify] can be run on concrete inputs.  The arithmetic
    is deliberately simple: the public key of [k] is [(k, 2k)], a
    signature carries [k] as its [r], and recovery lists four candidates
    around [r]. *)

Module Fixture.

Import signmessage.

Definition Curve : Type := unit.
Definition address : Type := bytes.
Definition b64text : Type := bytes.
Definition hrp : Type := string.

Definition secp256k1 : Curve := tt.

Definition order (_ : Curve) : Z :=
  0xFFFFFFFFFFFFFFFFFFFFFFFFFFFFFFFEBAAEDCE6AF48A03BBFD25E8CD0364141.

Definition sha256 (b : bytes) : bytes := le_digits 32 (le_value b).

Definition mult (ec : Curve) (k : Z) : result Point :=
  if (0 <? k) && (k <? order ec) then ret (k, 2 * k)
  else raise (Exn ValueError "private key not in [1, n-1]").

Definition octets_from_point (_ : Curve) (P : Point) (compressed : bool)
    : result bytes :=
  x <- to_bytes (fst P) 32 big ;;
  y <- to_bytes (snd P) 33 big ;;
  if compressed then ret ((if Z.odd (snd P) then x03 else x02) :: x)
  else ret (x04 :: x ++ y).

Definition h160 (b : bytes) : bytes := le_digits 20 (le_value (rev b)).

Definition p2pkh_address (pk : bytes) (_ : str) : result address :=
  ret (x00 :: h160 pk).

Definition h160_from_address (a : address) : result bytes :=
  match a with
  | x00 :: h =>
      if (List.length h =? 20)%nat then ret h
      else raise (Exn ValueError "not a 20-byte hash")
  | _ => raise (Exn ValueError "not a P2PKH address")
  end.

Definition sign (_ : Curve) (hf : bytes -> bytes) (msg : bytes) (prvkey : Z)
    : result (Z * Z) :=
  ret (prvkey, 1 + le_value (firstn 8 (hf msg))).

Definition pubkey_recovery (_ : Curve) (_ : bytes -> bytes) (_ : bytes)
    (sig : Z * Z) : result (list Point) :=
  let r := fst sig in
  ret [(r + 1, 2 * r + 2); (r, 2 * r);
       (r + 2, 2 * r + 4); (r + 3, 2 * r + 6)].

(** A recovery that misses the key, to reach the last line of [msgsign]. *)
Definition pubkey_recovery_missing (_ : Curve) (_ : bytes -> bytes)
    (_ : bytes) (sig : Z * Z) : result (list Point) :=
  let r := fst sig in
  ret [(r + 1, 2 * r + 2); (r + 4, 2 * r);
       (r + 2, 2 * r + 4); (r + 3, 2 * r + 6)].

Definition decode (a : address) : result (hrp * Z * list Z) :=
  match a with
  | x01 :: wp => ret ("bc", 0, map int_of_byte wp)
  | _ => raise (Exn ValueError "not a witness address")
  end.

Definition b64encode (b : bytes) : b64text := b.
Definition b64decode (t : b64text) : result bytes := ret t.

#[local] Instance imports : Imports := {|
  signmessage.Curve := Curve;
  signmessage.address := address;
  signmessage.b64text := b64text;
  signmessage.hrp := hrp;
  signmessage.secp256k1 := secp256k1;
  signmessage.order := order;
  signmessage.sha256 := sha256;
  signmessage.mult := mult;
  signmessage.octets_from_point := octets_from_point;
  signmessage.h160 := h160;
  signmessage.p2pkh_address := p2pkh_address;
  signmessage.h160_from_address := h160_from_address;
  signmessage.sign := sign;
  signmessage.pubkey_recovery := pubkey_recovery;
  signmessage.decode := decode;
  signmessage.b64encode := b64encode;
  signmessage.b64decode := b64decode
|}.

(** The same, with the recovery that misses the key. *)
#[local] Instance imports_missing : Imports := {|
  signmessage.Curve := Curve;
  signmessage.address := address;
  signmessage.b64text := b64text;
  signmessage.hrp := hrp;
  signmessage.secp256k1 := secp256k1;
  signmessage.order := order;
  signmessage.sha256 := sha256;
  signmessage.mult := mult;
  signmessage.octets_from_point := octets_from_point;
  signmessage.h160 := h160;
  signmessage.p2pkh_address := p2pkh_address;
  signmessage.h160_from_address := h160_from_address;
  signmessage.sign := sign;
  signmessage.pubkey_recovery := pubkey_recovery_missing;
  signmessage.decode := decode;
  signmessage.b64encode := b64encode;
  signmessage.b64decode := b64decode
|}.

Definition mainnet : str := literal "mainnet".

(** "Hello, World!" *)
Definition hello : str := literal "Hello, World!".

(** What [msgsign] returns for [hello] under key 12345, compressed. *)
Definition hello_signed : address * b64text :=
  Eval vm_compute in
    match @signmessage.msgsign imports hello 12345 true mainnet with
    | inr out => out
    | inl _ => ([], [])
    end.

(** The same signature with the flag that the table gives to a
    P2WPKH-P2SH address and key_id 1, and the P2SH address of the key. *)
Definition hello_signed_p2sh : address * b64text :=
  Eval vm_compute in
    match octets_from_point secp256k1 (12345, 24690) true with
    | inr pk =>
        (x00 :: h160 ([x00; x14] ++ h160 pk), x24 :: tl (snd hello_signed))
    | inl _ => ([], [])
    end.

(** A message of 128 characters, all of them "a". *)
Definition a128 : str := repeat 97 128.

(** The magic hash of [hello] and the candidates recovered from its
    signature. *)
Definition hello_magic : bytes :=
  Eval vm_compute in
    match @signmessage._magic_hash imports hello with
    | inr h => h
    | inl _ => []
    end.

Definition hello_candidates : list Point :=
  Eval vm_compute in
    match pubkey_recovery secp256k1 sha256 hello_magic (12345, 0) with
    | inr ks => ks
    | inl _ => []
    end.

(** Messages of 200, of 0xD800 and of 0x110000 characters. *)
Definition a200 : str := repeat 97 200.
Definition a_surrogate_length : str := repeat 97 (Z.to_nat 0xD800).
Definition a_beyond_unicode : str := repeat 97 (Z.to_nat 0x110000).

End Fixture.

(** * Properties *)

(** ** Facts about the runtime model *)

Module PyFacts.

Lemma int_of_byte_range (b : byte) : 0 <= int_of_byte b < 256.
Proof.
  unfold int_of_byte. pose proof (Byte.to_N_bounded b). lia.
Qed.

Lemma int_of_byte_of_int (i : Z) : int_of_byte (byte_of_int i) = i mod 256.
Proof.
  unfold int_of_byte, byte_of_int.
  pose proof (Z.mod_pos_bound i 256 ltac:(lia)) as Hm.
  destruct (Byte.of_N (Z.to_N (i mod 256))) as [b|] eqn:E.
  - apply Byte.to_of_N in E. rewrite E. lia.
  - apply Byte.of_N_None_iff in E. lia.
Qed.

Lemma byte_of_int_of_byte (b : byte) : byte_of_int (int_of_byte b) = b.
Proof.
  pose proof (int_of_byte_range b) as Hr.
  unfold byte_of_int. rewrite Z.mod_small by exact Hr.
  unfold int_of_byte. rewrite N2Z.id, Byte.of_to_N. reflexivity.
Qed.

Lemma int_of_byte_inj (a b : byte) : int_of_byte a = int_of_byte b -> a = b.
Proof.
  intros H. rewrite <- (byte_of_int_of_byte a), <- (byte_of_int_of_byte b).
  now rewrite H.
Qed.

Lemma le_digits_length (n : nat) (i : Z) : List.length (le_digits n i) = n.
Proof.
  revert i. induction n as [|n IH]; intros i; simpl; [reflexivity|].
  now rewrite IH.
Qed.

Lemma le_value_le_digits (n : nat) (i : Z) :
  le_value (le_digits n i) = i mod 256 ^ Z.of_nat n.
Proof.
  revert i. induction n as [|n IH]; intros i.
  - simpl. now rewrite Z.mod_1_r.
  - cbn [le_digits le_value]. rewrite IH, int_of_byte_of_int.
    rewrite Z.mod_mod by lia.
    rewrite Nat2Z.inj_succ, Z.pow_succ_r by lia.
    rewrite Z.rem_mul_r by lia. reflexivity.
Qed.

Lemma le_value_range (b : bytes) :
  0 <= le_value b < 256 ^ Z.of_nat (List.length b).
Proof.
  induction b as [|x b IH].
  - simpl. lia.
  - cbn [le_value List.length].
    rewrite Nat2Z.inj_succ, Z.pow_succ_r by lia.
    pose proof (int_of_byte_range x). lia.
Qed.

(** [int.from_bytes] undoes a successful [int.to_bytes]. *)
Lemma from_bytes_to_bytes (i : Z) (n : nat) (bo : byteorder) (b : bytes) :
  to_bytes i n bo = inr b -> from_bytes b bo = i /\ List.length b = n.
Proof.
  unfold to_bytes.
  destruct (Z.ltb_spec i 0); [discriminate|].
  destruct (Z.leb_spec (256 ^ Z.of_nat n) i); [discriminate|].
  intros E. injection E as <-.
  destruct bo; cbn [from_bytes].
  - rewrite le_value_le_digits, le_digits_length, Z.mod_small by lia. auto.
  - rewrite rev_involutive, length_rev, le_value_le_digits, le_digits_length.
    rewrite Z.mod_small by lia. auto.
Qed.

Lemma to_bytes_ok (i : Z) (n : nat) (bo : byteorder) :
  0 <= i < 256 ^ Z.of_nat n -> exists b, to_bytes i n bo = inr b.
Proof.
  intros [H0 H1]. unfold to_bytes.
  destruct (Z.ltb_spec i 0); [lia|].
  destruct (Z.leb_spec (256 ^ Z.of_nat n) i); [lia|].
  eexists. reflexivity.
Qed.

Lemma bytes_eqb_eq (a b : bytes) : bytes_eqb a b = true <-> a = b.
Proof.
  revert b. induction a as [|x a IH]; intros [|y b]; simpl;
    try (split; [discriminate|discriminate]); [tauto|].
  rewrite andb_true_iff, IH. split.
  - intros [Hx ->]. apply Byte.byte_dec_bl in Hx. now subst.
  - intros E. injection E as -> ->.
    split; [now apply Byte.byte_dec_lb|reflexivity].
Qed.

Lemma bytes_eqb_refl (a : bytes) : bytes_eqb a a = true.
Proof. now apply bytes_eqb_eq. Qed.

End PyFacts.

(** ** varint *)

Module varintFacts.

Import PyFacts.

Example encode_0xfc : varint.encode 0xfc = inr [xfc].
Proof. reflexivity. Qed.

Example encode_0xfd : varint.encode 0xfd = inr [xfd; xfd; x00].
Proof. reflexivity. Qed.

Example encode_0x10000 :
  varint.encode 0x10000 = inr [xfe; x00; x00; x01; x00].
Proof. reflexivity. Qed.

Example encode_negative :
  varint.encode (-1) = inl (Exn ValueError "bytes must be in range(0, 256)").
Proof. reflexivity. Qed.

Example encode_2_64 :
  varint.encode 0x10000000000000000 =
  inl (Exn ValueError
         "integer too large (0x10000000000000000) for varint encoding").
Proof. reflexivity. Qed.

Example decode_ignores_the_rest (f : str -> result bytes) :
  varint.decode f (varint.Bytes [xfd; xfd; x00; x07]) = inr 253.
Proof. reflexivity. Qed.

Example decode_short_read (f : str -> result bytes) :
  varint.decode f (varint.Bytes [xfe; x01]) = inr 1.
Proof. reflexivity. Qed.

Example decode_empty (f : str -> result bytes) :
  varint.decode f (varint.Bytes []) =
  inl (Exn IndexError "index out of range").
Proof. reflexivity. Qed.

Lemma encode_1 (i : Z) :
  0 <= i <= 0xfc -> varint.encode i = inr [byte_of_int i].
Proof.
  intros H. unfold varint.encode.
  destruct (Z.leb_spec i 0xfc); [|lia].
  cbn [bytes_of_ints].
  destruct (Z.leb_spec 0 i); [|lia].
  destruct (Z.ltb_spec i 256); [|lia].
  reflexivity.
Qed.

Lemma encode_3 (i : Z) :
  0xfc < i <= 0xffff -> varint.encode i = inr (xfd :: le_digits 2 i).
Proof.
  intros H. unfold varint.encode, to_bytes.
  destruct (Z.leb_spec i 0xfc); [lia|].
  destruct (Z.leb_spec i 0xffff); [|lia].
  destruct (Z.ltb_spec i 0); [lia|].
  destruct (Z.leb_spec (256 ^ Z.of_nat 2) i); [lia|].
  reflexivity.
Qed.

Lemma encode_5 (i : Z) :
  0xffff < i <= 0xffffffff -> varint.encode i = inr (xfe :: le_digits 4 i).
Proof.
  intros H. unfold varint.encode, to_bytes.
  destruct (Z.leb_spec i 0xfc); [lia|].
  destruct (Z.leb_spec i 0xffff); [lia|].
  destruct (Z.leb_spec i 0xffffffff); [|lia].
  destruct (Z.ltb_spec i 0); [lia|].
  destruct (Z.leb_spec (256 ^ Z.of_nat 4) i); [lia|].
  reflexivity.
Qed.

Lemma encode_9 (i : Z) :
  0xffffffff < i <= 0xffffffffffffffff ->
  varint.encode i = inr (xff :: le_digits 8 i).
Proof.
  intros H. unfold varint.encode, to_bytes.
  destruct (Z.leb_spec i 0xfc); [lia|].
  destruct (Z.leb_spec i 0xffff); [lia|].
  destruct (Z.leb_spec i 0xffffffff); [lia|].
  destruct (Z.leb_spec i 0xffffffffffffffff); [|lia].
  destruct (Z.ltb_spec i 0); [lia|].
  destruct (Z.leb_spec (256 ^ Z.of_nat 8) i); [lia|].
  reflexivity.
Qed.

Lemma encode_too_large (i : Z) :
  0xffffffffffffffff < i ->
  varint.encode i =
  inl (Exn ValueError
         ("integer too large (" ++ hex i ++ ") for varint encoding")%string).
Proof.
  intros H. unfold varint.encode.
  destruct (Z.leb_spec i 0xfc); [lia|].
  destruct (Z.leb_spec i 0xffff); [lia|].
  destruct (Z.leb_spec i 0xffffffff); [lia|].
  destruct (Z.leb_spec i 0xffffffffffffffff); [lia|].
  reflexivity.
Qed.

Section Decode.

Variable bytes_from_octets : str -> result bytes.

Lemma decode_small (b0 : byte) (rest : bytes) :
  int_of_byte b0 < 0xfd ->
  varint.decode bytes_from_octets (varint.Bytes (b0 :: rest)) =
  inr (int_of_byte b0).
Proof.
  intros H. unfold varint.decode, varint.decode_stream.
  cbn [read firstn skipn bytes_getitem nth_error bind ret Monad_result
       Monad_either fst].
  destruct (Z.eqb_spec (int_of_byte b0) 0xfd); [lia|].
  destruct (Z.eqb_spec (int_of_byte b0) 0xfe); [lia|].
  destruct (Z.eqb_spec (int_of_byte b0) 0xff); [lia|].
  reflexivity.
Qed.

Lemma decode_fd (rest : bytes) :
  varint.decode bytes_from_octets (varint.Bytes (xfd :: rest)) =
  inr (le_value (firstn 2 rest)).
Proof. reflexivity. Qed.

Lemma decode_fe (rest : bytes) :
  varint.decode bytes_from_octets (varint.Bytes (xfe :: rest)) =
  inr (le_value (firstn 4 rest)).
Proof. reflexivity. Qed.

Lemma decode_ff (rest : bytes) :
  varint.decode bytes_from_octets (varint.Bytes (xff :: rest)) =
  inr (le_value (firstn 8 rest)).
Proof. reflexivity. Qed.

Lemma le_value_firstn_le_digits (n : nat) (i : Z) :
  0 <= i < 256 ^ Z.of_nat n -> le_value (firstn n (le_digits n i)) = i.
Proof.
  intros H. rewrite firstn_all2 by (rewrite le_digits_length; lia).
  rewrite le_value_le_digits. now apply Z.mod_small.
Qed.

(** C9: decoding the varint encoding of [i] gives [i] back, for every
    [i] from 0 to 0xffffffffffffffff: [encode] returns, and [decode]
    applied to what it returned returns [i]. *)
Theorem decode_encode (i : Z) :
  0 <= i <= 0xffffffffffffffff ->
  (b <- varint.encode i ;;
   varint.decode bytes_from_octets (varint.Bytes b)) = inr i.
Proof.
  intros H.
  destruct (Z.le_gt_cases i 0xfc) as [H1|H1].
  - rewrite encode_1 by lia. cbn [bind Monad_result Monad_either].
    assert (E : int_of_byte (byte_of_int i) = i)
      by (rewrite int_of_byte_of_int; apply Z.mod_small; lia).
    rewrite decode_small; rewrite E; [reflexivity|lia].
  - destruct (Z.le_gt_cases i 0xffff) as [H2|H2].
    + rewrite encode_3 by lia. cbn [bind Monad_result Monad_either].
      rewrite decode_fd, le_value_firstn_le_digits; [reflexivity|lia].
    + destruct (Z.le_gt_cases i 0xffffffff) as [H3|H3].
      * rewrite encode_5 by lia. cbn [bind Monad_result Monad_either].
        rewrite decode_fe, le_value_firstn_le_digits; [reflexivity|lia].
      * rewrite encode_9 by lia. cbn [bind Monad_result Monad_either].
        rewrite decode_ff, le_value_firstn_le_digits; [reflexivity|lia].
Qed.

End Decode.

Lemma decode_encode_witness :
  (b <- varint.encode 70000 ;;
   varint.decode (fun _ => inr []) (varint.Bytes b)) = inr 70000.
Proof. apply (decode_encode (fun _ => inr []) 70000). lia. Defined.

(** C10: [encode] returns 1 byte for 0 <= i <= 0xfc, 3 bytes starting
    with 0xfd up to 0xffff, 5 bytes starting with 0xfe up to 0xffffffff,
    9 bytes starting with 0xff up to 0xffffffffffffffff, and raises
    ValueError above that. *)
Theorem encode_shape (i : Z) :
  (0 <= i <= 0xfc ->
   exists b, varint.encode i = inr b /\ List.length b = 1%nat) /\
  (0xfc < i <= 0xffff ->
   exists b, varint.encode i = inr b /\
             List.length b = 3%nat /\ hd_error b = Some xfd) /\
  (0xffff < i <= 0xffffffff ->
   exists b, varint.encode i = inr b /\
             List.length b = 5%nat /\ hd_error b = Some xfe) /\
  (0xffffffff < i <= 0xffffffffffffffff ->
   exists b, varint.encode i = inr b /\
             List.length b = 9%nat /\ hd_error b = Some xff) /\
  (0xffffffffffffffff < i ->
   exists e, varint.encode i = inl e /\ exn_cls e = ValueError).
Proof.
  repeat split; intros H.
  - rewrite encode_1 by lia. eexists; split; reflexivity.
  - rewrite encode_3 by lia. eexists; split; [reflexivity|].
    cbn [List.length hd_error]. now rewrite le_digits_length.
  - rewrite encode_5 by lia. eexists; split; [reflexivity|].
    cbn [List.length hd_error]. now rewrite le_digits_length.
  - rewrite encode_9 by lia. eexists; split; [reflexivity|].
    cbn [List.length hd_error]. now rewrite le_digits_length.
  - rewrite encode_too_large by lia. eexists; split; reflexivity.
Qed.

Lemma encode_shape_witness :
  (exists b, varint.encode 0xfc = inr b /\ List.length b = 1%nat) /\
  (exists b, varint.encode 0xfd = inr b /\
             List.length b = 3%nat /\ hd_error b = Some xfd) /\
  (exists b, varint.encode 0x10000 = inr b /\
             List.length b = 5%nat /\ hd_error b = Some xfe) /\
  (exists b, varint.encode 0x100000000 = inr b /\
             List.length b = 9%nat /\ hd_error b = Some xff) /\
  (exists e, varint.encode 0x10000000000000000 = inl e /\
             exn_cls e = ValueError).
Proof.
  split; [apply (proj1 (encode_shape 0xfc)); lia|].
  split; [apply (proj1 (proj2 (encode_shape 0xfd))); lia|].
  split; [apply (proj1 (proj2 (proj2 (encode_shape 0x10000)))); lia|].
  split;
    [apply (proj1 (proj2 (proj2 (proj2 (encode_shape 0x100000000))))); lia|].
  apply (proj2 (proj2 (proj2 (proj2 (encode_shape 0x10000000000000000))))).
  lia.
Defined.

End varintFacts.

(** ** signmessage *)

Module signmessageFacts.

Import PyFacts.
Import signmessage.

(** Unfolds the binds of the either monad and nothing else. *)
Ltac monad_step :=
  cbn [bind ret raise Monad_result Monad_either Exc_result Exception_either].

Section Verification.

Context {I : Imports}.

Lemma Point_eqb_eq (P Q : Point) : Point_eqb P Q = true <-> P = Q.
Proof.
  destruct P as [x y], Q as [x' y']. unfold Point_eqb. cbn [fst snd].
  rewrite andb_true_iff, !Z.eqb_eq. split.
  - intros [-> ->]. reflexivity.
  - intros E. injection E as -> ->. auto.
Qed.

(** What [_verify] does with a payload that is not 65 bytes long. *)
Lemma _verify_length (msg : str) (addr : address) (sig : b64text)
    (payload : bytes) :
  b64decode sig = inr payload ->
  List.length payload <> 65%nat ->
  _verify msg addr sig =
  inl (Exn ValueError
         ("Wrong encoding length: " ++ str_of_nat (List.length payload)
          ++ " instead of 65")%string).
Proof.
  intros Hdec Hlen. unfold _verify. rewrite Hdec. monad_step.
  destruct (Nat.eqb_spec (List.length payload) 65); [contradiction|].
  reflexivity.
Qed.

(** C4: [verify] always returns a boolean: [False] whenever [_verify]
    raises, whatever the exception, and the boolean of [_verify] whenever
    that one returns. *)
Theorem verify_total (msg : str) (addr : address) (sig : b64text) :
  (exists b : bool, verify msg addr sig = b) /\
  (forall e, _verify msg addr sig = inl e -> verify msg addr sig = false) /\
  (forall b, _verify msg addr sig = inr b -> verify msg addr sig = b).
Proof.
  unfold verify. repeat split.
  - eexists. reflexivity.
  - intros e ->. reflexivity.
  - intros b ->. reflexivity.
Qed.

(** C7: a signature whose base64-decoded form is not 65 bytes long makes
    [_verify] raise the length error, whatever the message, the address
    and the behaviour of the key and address routines, none of which the
    outcome depends on; [verify] then returns [False]. *)
Theorem verify_requires_65_bytes (msg : str) (addr : address)
    (sig : b64text) (payload : bytes) :
  b64decode sig = inr payload ->
  List.length payload <> 65%nat ->
  _verify msg addr sig =
  inl (Exn ValueError
         ("Wrong encoding length: " ++ str_of_nat (List.length payload)
          ++ " instead of 65")%string) /\
  verify msg addr sig = false.
Proof.
  intros Hdec Hlen.
  pose proof (_verify_length msg addr sig payload Hdec Hlen) as E.
  split; [exact E|]. unfold verify. now rewrite E.
Qed.

(** [_verify] on a 65-byte payload, up to the recovery flag. *)
Lemma _verify_flag_low (msg : str) (addr : address) (sig : b64text)
    (flag : byte) (rest : bytes) :
  b64decode sig = inr (flag :: rest) ->
  List.length (flag :: rest) = 65%nat ->
  int_of_byte flag < 27 ->
  exists e, _verify msg addr sig = inl e.
Proof.
  intros Hdec Hlen Hrf. unfold _verify. rewrite Hdec. monad_step.
  rewrite Hlen. cbn [Nat.eqb negb].
  destruct (_magic_hash msg) as [e|magic]; [eexists; reflexivity|].
  destruct (pubkey_recovery _ _ _ _) as [e|ks]; [eexists; reflexivity|].
  cbn [bytes_getitem nth_error]. monad_step.
  destruct (Z.ltb_spec (int_of_byte flag) 27); [|lia].
  eexists; reflexivity.
Qed.

Lemma _verify_flag_high (msg : str) (addr : address) (sig : b64text)
    (flag : byte) (rest : bytes) :
  b64decode sig = inr (flag :: rest) ->
  List.length (flag :: rest) = 65%nat ->
  42 <= int_of_byte flag ->
  exists e, _verify msg addr sig = inl e.
Proof.
  intros Hdec Hlen Hrf. unfold _verify. rewrite Hdec. monad_step.
  rewrite Hlen. cbn [Nat.eqb negb].
  destruct (_magic_hash msg) as [e|magic]; [eexists; reflexivity|].
  destruct (pubkey_recovery _ _ _ _) as [e|ks]; [eexists; reflexivity|].
  cbn [bytes_getitem nth_error]. monad_step.
  destruct (Z.ltb_spec (int_of_byte flag) 27); [lia|].
  destruct (Z.ltb_spec (int_of_byte flag) 31); [lia|].
  destruct (getitem ks _) as [e|P]; [eexists; reflexivity|].
  destruct (octets_from_point _ _ _) as [e|pk]; [eexists; reflexivity|].
  destruct (Z.ltb_spec (int_of_byte flag) 35); [lia|].
  destruct (Z.ltb_spec (int_of_byte flag) 38); [lia|].
  destruct (Z.ltb_spec (int_of_byte flag) 42); [lia|].
  eexists; reflexivity.
Qed.

(** C6: a 65-byte payload whose recovery flag is 26, or 43, never
    verifies. *)
Theorem verify_flag_26_43 (msg : str) (addr : address) (sig : b64text)
    (flag : byte) (rest : bytes) :
  b64decode sig = inr (flag :: rest) ->
  List.length (flag :: rest) = 65%nat ->
  int_of_byte flag = 26 \/ int_of_byte flag = 43 ->
  verify msg addr sig = false.
Proof.
  intros Hdec Hlen [Hrf|Hrf].
  - destruct (_verify_flag_low msg addr sig flag rest Hdec Hlen) as [e E];
      [lia|].
    unfold verify. now rewrite E.
  - destruct (_verify_flag_high msg addr sig flag rest Hdec Hlen) as [e E];
      [lia|].
    unfold verify. now rewrite E.
Qed.

(** [_verify] on a 65-byte payload whose flag is 35 or more: the
    candidate is taken at index [flag - 31], flags up to 37 go to the
    witness-program comparison, flags 38 to 41 to the script-hash
    comparison, and 42 is refused. *)
Lemma _verify_segwit_branches (msg : str) (addr : address) (sig : b64text)
    (flag : byte) (rest magic : bytes) (ks : list Point) :
  b64decode sig = inr (flag :: rest) ->
  List.length (flag :: rest) = 65%nat ->
  35 <= int_of_byte flag ->
  _magic_hash msg = inr magic ->
  pubkey_recovery secp256k1 hf magic
    (from_bytes (slice (flag :: rest) 1 33) big,
     from_bytes (slice_from (flag :: rest) 33) big) = inr ks ->
  _verify msg addr sig =
  (P <- getitem ks (Z.to_nat (int_of_byte flag - 31)) ;;
   pk <- octets_from_point secp256k1 P true ;;
   if int_of_byte flag <? 38 then
     d <- decode addr ;;
     let '(_, wv, wp) := d in
     if negb (wv =? 0) then
       raise (Exn ValueError
                ("Invalid witness version: " ++ str_of_int wv)%string)
     else w <- bytes_of_ints wp ;; ret (bytes_eqb (h160 pk) w)
   else if int_of_byte flag <? 42 then
     a <- h160_from_address addr ;;
     ret (bytes_eqb (h160 ([x00; x14] ++ h160 pk)) a)
   else
     raise (Exn ValueError
              ("Invalid recovery flag: "
               ++ str_of_int (int_of_byte flag))%string)).
Proof.
  intros Hdec Hlen Hrf Hmagic Hrec. unfold _verify. rewrite Hdec. monad_step.
  rewrite Hlen. cbn [Nat.eqb negb]. rewrite Hmagic, Hrec.
  cbn [bytes_getitem nth_error]. monad_step.
  destruct (Z.ltb_spec (int_of_byte flag) 27); [lia|].
  destruct (Z.ltb_spec (int_of_byte flag) 31); [lia|].
  destruct (getitem ks _) as [e|P]; [reflexivity|].
  destruct (octets_from_point _ _ _) as [e|pk]; [reflexivity|].
  destruct (Z.ltb_spec (int_of_byte flag) 35); [lia|].
  reflexivity.
Qed.

(** C1, as the code has it: with the four candidates that recovery
    yields (or fewer), a 65-byte payload whose flag lies in 35..42 is
    never compared with any address.  The candidate index is the flag
    minus 31, at least 4, so [_verify] raises and [verify] returns
    [False] for every message and address. *)
Theorem verify_segwit_flags_raise (msg : str) (addr : address)
    (sig : b64text) (flag : byte) (rest : bytes) :
  (forall m rs ks,
      pubkey_recovery secp256k1 hf m rs = inr ks ->
      (List.length ks <= 4)%nat) ->
  b64decode sig = inr (flag :: rest) ->
  List.length (flag :: rest) = 65%nat ->
  35 <= int_of_byte flag <= 42 ->
  (exists e, _verify msg addr sig = inl e) /\ verify msg addr sig = false.
Proof.
  intros Hfour Hdec Hlen Hrf.
  assert (E : exists e, _verify msg addr sig = inl e).
  { destruct (_magic_hash msg) as [e|magic] eqn:Hmagic.
    { unfold _verify. rewrite Hdec. monad_step.
      rewrite Hlen. cbn [Nat.eqb negb]. rewrite Hmagic.
      eexists; reflexivity. }
    destruct (pubkey_recovery secp256k1 hf magic
                (from_bytes (slice (flag :: rest) 1 33) big,
                 from_bytes (slice_from (flag :: rest) 33) big))
      as [e|ks] eqn:Hrec.
    { unfold _verify. rewrite Hdec. monad_step.
      rewrite Hlen. cbn [Nat.eqb negb]. rewrite Hmagic, Hrec.
      eexists; reflexivity. }
    rewrite (_verify_segwit_branches msg addr sig flag rest magic ks)
      by (assumption || lia).
    apply Hfour in Hrec. unfold getitem.
    replace (nth_error ks (Z.to_nat (int_of_byte flag - 31))) with (@None Point)
      by (symmetry; apply nth_error_None; lia).
    eexists; reflexivity. }
  split; [exact E|]. destruct E as [e E]. unfold verify. now rewrite E.
Qed.

End Verification.

Section Signing.

Context {I : Imports}.

(** The recovery flag that [msgsign] packs for candidate index [i]. *)
Lemma flag_byte (i : Z) (compressed : bool) :
  0 <= i ->
  27 + i + (if compressed then 4 else 0) < 256 ->
  bytes_of_ints [if compressed then 27 + i + 4 else 27 + i] =
  inr [byte_of_int (27 + i + (if compressed then 4 else 0))].
Proof.
  intros H0 H1. cbn [bytes_of_ints].
  replace (if compressed then 27 + i + 4 else 27 + i)
    with (27 + i + (if compressed then 4 else 0))
    by (destruct compressed; lia).
  destruct (Z.leb_spec 0 (27 + i + (if compressed then 4 else 0)));
    [|destruct compressed; lia].
  destruct (Z.ltb_spec (27 + i + (if compressed then 4 else 0)) 256); [|lia].
  reflexivity.
Qed.

(** A return from the loop of [msgsign] happens at the first candidate
    equal to the public key. *)
Lemma msgsign_loop_returns (pubkey : Point) (compressed : bool)
    (addr : address) (bytes_sig : bytes) (pubkeys : list Point) (i : Z)
    (a : address) (t : b64text) :
  0 <= i ->
  msgsign_loop pubkey compressed addr bytes_sig pubkeys i = inr (a, t) ->
  exists k : nat,
    nth_error pubkeys k = Some pubkey /\
    a = addr /\
    27 + (i + Z.of_nat k) + (if compressed then 4 else 0) < 256 /\
    t = b64encode
          (byte_of_int (27 + (i + Z.of_nat k) + (if compressed then 4 else 0))
           :: bytes_sig).
Proof.
  revert i. induction pubkeys as [|P ks IH]; intros i Hi; cbn [msgsign_loop].
  - discriminate.
  - destruct (Point_eqb P pubkey) eqn:HP.
    + apply Point_eqb_eq in HP. subst P. intros E. exists 0%nat.
      rewrite Z.add_0_r.
      destruct (Z.lt_ge_cases (27 + i + (if compressed then 4 else 0)) 256)
        as [Hlt|Hge].
      * rewrite flag_byte in E by assumption. monad_step.
        injection E as <- <-. auto.
      * exfalso. cbn [bytes_of_ints] in E.
        destruct (Z.ltb_spec (if compressed then 27 + i + 4 else 27 + i) 256);
          [destruct compressed; lia|].
        rewrite andb_false_r in E. discriminate.
    + intros E. apply IH in E; [|lia]. destruct E as (k & Hk & -> & Hlt & ->).
      exists (S k). rewrite Nat2Z.inj_succ.
      replace (i + Z.succ (Z.of_nat k)) with (i + 1 + Z.of_nat k) by lia.
      auto.
Qed.

(** With no candidate equal to the public key the loop falls through. *)
Lemma msgsign_loop_falls_through (pubkey : Point) (compressed : bool)
    (addr : address) (bytes_sig : bytes) (pubkeys : list Point) (i : Z) :
  (forall P, In P pubkeys -> P <> pubkey) ->
  msgsign_loop pubkey compressed addr bytes_sig pubkeys i =
  inl (Exn ValueError "Public key not recovered").
Proof.
  revert i. induction pubkeys as [|P ks IH]; intros i Hno; cbn [msgsign_loop].
  - reflexivity.
  - destruct (Point_eqb P pubkey) eqn:HP.
    + apply Point_eqb_eq in HP. exfalso. apply (Hno P); [now left|exact HP].
    + apply IH. intros Q HQ. apply Hno. now right.
Qed.

(** No candidate before the one at which the loop returns equals the
    public key. *)
Lemma msgsign_loop_first (pubkey : Point) (compressed : bool)
    (addr : address) (bytes_sig : bytes) (pubkeys : list Point) (i : Z)
    (a : address) (t : b64text) :
  0 <= i ->
  msgsign_loop pubkey compressed addr bytes_sig pubkeys i = inr (a, t) ->
  exists k : nat,
    nth_error pubkeys k = Some pubkey /\
    (forall j, (j < k)%nat -> nth_error pubkeys j <> Some pubkey) /\
    27 + (i + Z.of_nat k) + (if compressed then 4 else 0) < 256 /\
    t = b64encode
          (byte_of_int (27 + (i + Z.of_nat k) + (if compressed then 4 else 0))
           :: bytes_sig).
Proof.
  revert i. induction pubkeys as [|P ks IH]; intros i Hi; cbn [msgsign_loop].
  - discriminate.
  - destruct (Point_eqb P pubkey) eqn:HP.
    + apply Point_eqb_eq in HP. subst P. intros E. exists 0%nat.
      rewrite Z.add_0_r.
      destruct (Z.lt_ge_cases (27 + i + (if compressed then 4 else 0)) 256)
        as [Hlt|Hge].
      * rewrite flag_byte in E by assumption. monad_step.
        injection E as <- <-. repeat split; try assumption. lia.
      * exfalso. cbn [bytes_of_ints] in E.
        destruct (Z.ltb_spec (if compressed then 27 + i + 4 else 27 + i) 256);
          [destruct compressed; lia|].
        rewrite andb_false_r in E. discriminate.
    + intros E. apply IH in E; [|lia].
      destruct E as (k & Hk & Hmin & Hlt & ->).
      exists (S k). rewrite Nat2Z.inj_succ.
      replace (i + Z.succ (Z.of_nat k)) with (i + 1 + Z.of_nat k) by lia.
      repeat split; try assumption.
      intros [|j] Hj; cbn [nth_error].
      * intros E. injection E as ->.
        assert (Point_eqb pubkey pubkey = true) by now apply Point_eqb_eq.
        congruence.
      * apply Hmin. lia.
Qed.

(** Everything that has happened when [msgsign] returns. *)
Lemma msgsign_returns (msg : str) (prvkey : Z) (compressed : bool)
    (network : str) (addr : address) (sig : b64text) :
  msgsign msg prvkey compressed network = inr (addr, sig) ->
  exists (pubkey : Point) (pk magic : bytes) (r s : Z) (ks : list Point)
         (r_bytes s_bytes : bytes) (k : nat),
    mult secp256k1 prvkey = inr pubkey /\
    octets_from_point secp256k1 pubkey compressed = inr pk /\
    p2pkh_address pk network = inr addr /\
    _magic_hash msg = inr magic /\
    sign secp256k1 hf magic prvkey = inr (r, s) /\
    pubkey_recovery secp256k1 hf magic (r, s) = inr ks /\
    to_bytes r 32 big = inr r_bytes /\
    to_bytes s 32 big = inr s_bytes /\
    nth_error ks k = Some pubkey /\
    27 + Z.of_nat k + (if compressed then 4 else 0) < 256 /\
    sig = b64encode
            (byte_of_int (27 + Z.of_nat k + (if compressed then 4 else 0))
             :: r_bytes ++ s_bytes).
Proof.
  unfold msgsign. monad_step.
  destruct (mult secp256k1 prvkey) as [e|pubkey] eqn:Hmult; [discriminate|].
  destruct (octets_from_point secp256k1 pubkey compressed) as [e|pk] eqn:Hpk;
    [discriminate|].
  destruct (p2pkh_address pk network) as [e|addr'] eqn:Haddr; [discriminate|].
  destruct (_magic_hash msg) as [e|magic] eqn:Hmagic; [discriminate|].
  destruct (sign secp256k1 hf magic prvkey) as [e|[r s]] eqn:Hsign;
    [discriminate|].
  destruct (pubkey_recovery secp256k1 hf magic (r, s)) as [e|ks] eqn:Hrec;
    [discriminate|].
  cbn [fst snd].
  destruct (to_bytes r 32 big) as [e|r_bytes] eqn:Hr; [discriminate|].
  destruct (to_bytes s 32 big) as [e|s_bytes] eqn:Hs; [discriminate|].
  intros E. apply msgsign_loop_returns in E; [|lia].
  destruct E as (k & Hk & -> & Hlt & ->). rewrite Z.add_0_l in *.
  exists pubkey, pk, magic, r, s, ks, r_bytes, s_bytes, k.
  repeat split; try reflexivity; assumption.
Qed.

(** The same, with the candidate found being the first that equals
    the public key. *)
Lemma msgsign_returns_first (msg : str) (prvkey : Z) (compressed : bool)
    (network : str) (addr : address) (sig : b64text) :
  msgsign msg prvkey compressed network = inr (addr, sig) ->
  exists (pubkey : Point) (magic : bytes) (r s : Z) (ks : list Point)
         (r_bytes s_bytes : bytes) (k : nat),
    mult secp256k1 prvkey = inr pubkey /\
    _magic_hash msg = inr magic /\
    sign secp256k1 hf magic prvkey = inr (r, s) /\
    pubkey_recovery secp256k1 hf magic (r, s) = inr ks /\
    to_bytes r 32 big = inr r_bytes /\
    to_bytes s 32 big = inr s_bytes /\
    nth_error ks k = Some pubkey /\
    (forall j, (j < k)%nat -> nth_error ks j <> Some pubkey) /\
    27 + Z.of_nat k + (if compressed then 4 else 0) < 256 /\
    sig = b64encode
            (byte_of_int (27 + Z.of_nat k + (if compressed then 4 else 0))
             :: r_bytes ++ s_bytes).
Proof.
  unfold msgsign. monad_step.
  destruct (mult secp256k1 prvkey) as [e|pubkey] eqn:Hmult; [discriminate|].
  destruct (octets_from_point secp256k1 pubkey compressed) as [e|pk];
    [discriminate|].
  destruct (p2pkh_address pk network) as [e|addr']; [discriminate|].
  destruct (_magic_hash msg) as [e|magic] eqn:Hmagic; [discriminate|].
  destruct (sign secp256k1 hf magic prvkey) as [e|[r s]] eqn:Hsign;
    [discriminate|].
  destruct (pubkey_recovery secp256k1 hf magic (r, s)) as [e|ks] eqn:Hrec;
    [discriminate|].
  cbn [fst snd].
  destruct (to_bytes r 32 big) as [e|r_bytes] eqn:Hr; [discriminate|].
  destruct (to_bytes s 32 big) as [e|s_bytes] eqn:Hs; [discriminate|].
  intros E. apply msgsign_loop_first in E; [|lia].
  destruct E as (k & Hk & Hmin & Hlt & ->). rewrite Z.add_0_l in *.
  exists pubkey, magic, r, s, ks, r_bytes, s_bytes, k.
  repeat split; try reflexivity; assumption.
Qed.

(** The two slices that [_verify] takes from a payload laid out as
    flag, r, s. *)
Lemma payload_slices (flag : byte) (r_bytes s_bytes : bytes) :
  List.length r_bytes = 32%nat ->
  slice (flag :: r_bytes ++ s_bytes) 1 33 = r_bytes /\
  slice_from (flag :: r_bytes ++ s_bytes) 33 = s_bytes.
Proof.
  intros Hr. unfold slice, slice_from. split.
  - change (33 - 1)%nat with 32%nat. cbn [skipn].
    rewrite <- Hr. rewrite firstn_app, firstn_all, Nat.sub_diag.
    cbn [firstn]. apply app_nil_r.
  - change (skipn 33 (flag :: r_bytes ++ s_bytes))
      with (skipn 32 (r_bytes ++ s_bytes)).
    rewrite <- Hr. rewrite skipn_app, Nat.sub_diag, skipn_all.
    reflexivity.
Qed.

(** C5: when [msgsign] returns, the base64-decoded signature is 65
    bytes: a flag byte equal to 27 + key_id + (4 if compressed), with
    key_id in 0..3, then the 32-byte big-endian [r], then the 32-byte
    big-endian [s], where [(r, s)] is the signature of the magic hash
    and key_id is the index of the first candidate recovered from that
    signature that equals the public key of [prvkey].  Base64 decoding
    is taken to undo encoding, and recovery to yield at most four
    candidates. *)
Theorem msgsign_signature_layout (msg : str) (prvkey : Z)
    (compressed : bool) (network : str) (addr : address) (sig : b64text) :
  (forall b, b64decode (b64encode b) = inr b) ->
  (forall m rs ks,
      pubkey_recovery secp256k1 hf m rs = inr ks ->
      (List.length ks <= 4)%nat) ->
  msgsign msg prvkey compressed network = inr (addr, sig) ->
  exists (key_id r s : Z) (flag : byte) (r_bytes s_bytes magic : bytes)
         (pubkey : Point) (ks : list Point),
    b64decode sig = inr (flag :: r_bytes ++ s_bytes) /\
    List.length (flag :: r_bytes ++ s_bytes) = 65%nat /\
    0 <= key_id <= 3 /\
    int_of_byte flag = 27 + key_id + (if compressed then 4 else 0) /\
    to_bytes r 32 big = inr r_bytes /\ List.length r_bytes = 32%nat /\
    to_bytes s 32 big = inr s_bytes /\ List.length s_bytes = 32%nat /\
    _magic_hash msg = inr magic /\
    sign secp256k1 hf magic prvkey = inr (r, s) /\
    mult secp256k1 prvkey = inr pubkey /\
    pubkey_recovery secp256k1 hf magic (r, s) = inr ks /\
    nth_error ks (Z.to_nat key_id) = Some pubkey /\
    (forall j, (j < Z.to_nat key_id)%nat -> nth_error ks j <> Some pubkey).
Proof.
  intros Hb64 Hfour Hsigned.
  destruct (msgsign_returns_first _ _ _ _ _ _ Hsigned)
    as (pubkey & magic & r & s & ks & r_bytes & s_bytes & k &
        Hmult & Hmagic & Hsign & Hrec & Hr & Hs & Hk & Hmin & Hlt & ->).
  destruct (from_bytes_to_bytes _ _ _ _ Hr) as [_ Hrl].
  destruct (from_bytes_to_bytes _ _ _ _ Hs) as [_ Hsl].
  assert (Hk4 : (k < 4)%nat).
  { pose proof (Hfour _ _ _ Hrec).
    assert (k < List.length ks)%nat by (apply nth_error_Some; congruence).
    lia. }
  exists (Z.of_nat k), r, s,
    (byte_of_int (27 + Z.of_nat k + (if compressed then 4 else 0))),
    r_bytes, s_bytes, magic, pubkey, ks.
  rewrite Nat2Z.id.
  repeat split; try assumption; try lia.
  - apply Hb64.
  - cbn [List.length]. rewrite length_app, Hrl, Hsl. reflexivity.
  - rewrite int_of_byte_of_int. apply Z.mod_small. destruct compressed; lia.
Qed.

(** Verifying what [msgsign] returned, for any key and message. *)
Lemma verify_msgsign_any (msg : str) (prvkey : Z) (compressed : bool)
    (network : str) (addr : address) (sig : b64text) :
  (forall b, b64decode (b64encode b) = inr b) ->
  (forall m rs ks,
      pubkey_recovery secp256k1 hf m rs = inr ks ->
      (List.length ks <= 4)%nat) ->
  (forall pk net a,
      p2pkh_address pk net = inr a -> h160_from_address a = inr (h160 pk)) ->
  msgsign msg prvkey compressed network = inr (addr, sig) ->
  _verify msg addr sig = inr true.
Proof.
  intros Hb64 Hfour Hcodec Hsigned.
  destruct (msgsign_returns _ _ _ _ _ _ Hsigned)
    as (pubkey & pk & magic & r & s & ks & r_bytes & s_bytes & k &
        Hmult & Hpk & Haddr & Hmagic & Hsign & Hrec & Hr & Hs & Hk & Hlt & ->).
  destruct (from_bytes_to_bytes _ _ _ _ Hr) as [Hrv Hrl].
  destruct (from_bytes_to_bytes _ _ _ _ Hs) as [Hsv Hsl].
  assert (Hk4 : (k < 4)%nat).
  { pose proof (Hfour _ _ _ Hrec).
    assert (k < List.length ks)%nat by (apply nth_error_Some; congruence).
    lia. }
  set (rf := 27 + Z.of_nat k + (if compressed then 4 else 0)).
  assert (Hrf : int_of_byte (byte_of_int rf) = rf).
  { rewrite int_of_byte_of_int. apply Z.mod_small.
    subst rf. destruct compressed; lia. }
  destruct (payload_slices (byte_of_int rf) r_bytes s_bytes Hrl) as [Sr Ss].
  unfold _verify. rewrite Hb64. monad_step.
  replace (List.length (byte_of_int rf :: r_bytes ++ s_bytes)) with 65%nat
    by (cbn [List.length]; rewrite length_app, Hrl, Hsl; reflexivity).
  cbn [Nat.eqb negb]. rewrite Sr, Ss, Hrv, Hsv, Hmagic, Hrec.
  cbn [bytes_getitem nth_error]. monad_step. rewrite Hrf.
  apply Hcodec in Haddr.
  destruct compressed; subst rf.
  - destruct (Z.ltb_spec (27 + Z.of_nat k + 4) 27); [lia|].
    destruct (Z.ltb_spec (27 + Z.of_nat k + 4) 31); [lia|].
    replace (Z.to_nat (27 + Z.of_nat k + 4 - 31)) with k by lia.
    unfold getitem. rewrite Hk. monad_step. rewrite Hpk.
    destruct (Z.ltb_spec (27 + Z.of_nat k + 4) 35); [|lia].
    rewrite Haddr, bytes_eqb_refl. reflexivity.
  - destruct (Z.ltb_spec (27 + Z.of_nat k + 0) 27); [lia|].
    destruct (Z.ltb_spec (27 + Z.of_nat k + 0) 31); [|lia].
    replace (Z.to_nat (27 + Z.of_nat k + 0 - 27)) with k by lia.
    unfold getitem. rewrite Hk. monad_step. rewrite Hpk.
    destruct (Z.ltb_spec (27 + Z.of_nat k + 0) 35); [|lia].
    rewrite Haddr, bytes_eqb_refl. reflexivity.
Qed.

(** C2: for a private key in [1, n-1] and a message of fewer than 256
    characters, if [msgsign] returns an address and a signature then
    [verify] accepts them for that message.  Base64 decoding is taken to
    undo encoding, [h160_from_address] to give back the hash that
    [p2pkh_address] encoded, and recovery to yield at most four
    candidates. *)
Theorem verify_msgsign (msg : str) (prvkey : Z) (compressed : bool)
    (network : str) (addr : address) (sig : b64text) :
  (forall b, b64decode (b64encode b) = inr b) ->
  (forall m rs ks,
      pubkey_recovery secp256k1 hf m rs = inr ks ->
      (List.length ks <= 4)%nat) ->
  (forall pk net a,
      p2pkh_address pk net = inr a -> h160_from_address a = inr (h160 pk)) ->
  0 < prvkey < order secp256k1 ->
  (List.length msg < 256)%nat ->
  msgsign msg prvkey compressed network = inr (addr, sig) ->
  verify msg addr sig = true.
Proof.
  intros Hb64 Hfour Hcodec _ _ Hsigned. unfold verify.
  now rewrite (verify_msgsign_any _ _ _ _ _ _ Hb64 Hfour Hcodec Hsigned).
Qed.

(** C8, as the code has it: when [r] and [s] fit in 32 bytes and no
    recovered candidate equals the public key, [msgsign] raises a
    [ValueError] whose message is "Public key not recovered".  It is the
    exception class that [_verify] raises for a signature of the wrong
    length: the failure has a message of its own, not a kind of its
    own. *)
Theorem msgsign_not_recovered (msg : str) (prvkey : Z) (compressed : bool)
    (network : str) (pubkey : Point) (pk : bytes) (addr : address)
    (magic : bytes) (r s : Z) (ks : list Point) :
  mult secp256k1 prvkey = inr pubkey ->
  octets_from_point secp256k1 pubkey compressed = inr pk ->
  p2pkh_address pk network = inr addr ->
  _magic_hash msg = inr magic ->
  sign secp256k1 hf magic prvkey = inr (r, s) ->
  pubkey_recovery secp256k1 hf magic (r, s) = inr ks ->
  0 <= r < 2 ^ 256 ->
  0 <= s < 2 ^ 256 ->
  (forall P, In P ks -> P <> pubkey) ->
  msgsign msg prvkey compressed network =
  inl (Exn ValueError "Public key not recovered") /\
  (forall msg' addr' sig' payload,
      b64decode sig' = inr payload ->
      List.length payload <> 65%nat ->
      exists e, _verify msg' addr' sig' = inl e /\ exn_cls e = ValueError).
Proof.
  intros Hmult Hpk Haddr Hmagic Hsign Hrec Hr Hs Hno. split.
  - unfold msgsign. rewrite Hmult. monad_step.
    rewrite Hpk, Haddr, Hmagic, Hsign, Hrec. cbn [fst snd].
    assert (E : 256 ^ Z.of_nat 32 = 2 ^ 256) by reflexivity.
    destruct (to_bytes_ok r 32 big) as [r_bytes ->]; [lia|].
    destruct (to_bytes_ok s 32 big) as [s_bytes ->]; [lia|].
    now apply msgsign_loop_falls_through.
  - intros msg' addr' sig' payload Hdec Hlen.
    rewrite (_verify_length msg' addr' sig' payload Hdec Hlen).
    eexists. split; reflexivity.
Qed.

(** The magic hash of a message of at most 127 characters is the hash
    of the payload that the specification describes. *)
Lemma _magic_hash_short (msg : str) :
  (List.length msg <= 127)%nat ->
  _magic_hash msg = (payload <- Spec.magic_payload msg ;; ret (hf payload)).
Proof.
  intros Hlen. unfold _magic_hash, Spec.magic_payload, chr.
  destruct (Z.ltb_spec (Z.of_nat (List.length msg)) (- 0x80000000)); [lia|].
  destruct (Z.ltb_spec 0x7fffffff (Z.of_nat (List.length msg))); [lia|].
  destruct (Z.leb_spec 0 (Z.of_nat (List.length msg))); [|lia].
  destruct (Z.ltb_spec (Z.of_nat (List.length msg)) 0x110000); [|lia].
  cbn [andb encode]. monad_step. unfold utf8_char at 1.
  destruct (Z.ltb_spec (Z.of_nat (List.length msg)) 0x80); [|lia].
  destruct (encode msg) as [e|data]; reflexivity.
Qed.

(** Longer messages are taken as they come: 256 characters give the
    two length bytes 0xC4 0x80.  A length in the surrogate range is
    refused by the encoder, though not by any check of the length. *)
Example magic_hash_length_256 :
  _magic_hash (repeat 97 256) =
  inr (hf (prefix ++ [xc4; x80] ++ repeat "a"%byte 256)).
Proof. reflexivity. Qed.

Example magic_hash_length_55296 :
  _magic_hash (repeat 97 (Z.to_nat 0xD800)) =
  inl (Exn UnicodeEncodeError
         "'utf-8' codec can't encode character: surrogates not allowed").
Proof. vm_compute. reflexivity. Qed.

(** C3, at a message of 128 characters: the code hashes the header,
    then the two bytes 0xC2 0x80 (the UTF-8 encoding of the character
    whose code point is 128), then the message, whereas the
    specification's payload has the single byte 0x80 in their place. *)
Theorem magic_hash_length_128 :
  _magic_hash Fixture.a128 =
  inr (hf (prefix ++ [xc2; x80] ++ repeat "a"%byte 128)) /\
  Spec.magic_payload Fixture.a128 =
  inr (prefix ++ [x80] ++ repeat "a"%byte 128) /\
  prefix ++ [xc2; x80] ++ repeat "a"%byte 128 <>
  prefix ++ [x80] ++ repeat "a"%byte 128.
Proof.
  split; [reflexivity|]. split; [reflexivity|].
  intros E. apply (f_equal (@List.length byte)) in E.
  vm_compute in E. discriminate.
Qed.

End Signing.

(** *** Runs on the stand-in collaborators *)

Lemma fixture_b64 (b : bytes) :
  @b64decode Fixture.imports (@b64encode Fixture.imports b) = inr b.
Proof. reflexivity. Qed.

Lemma fixture_four (m : bytes) (rs : Z * Z) (ks : list Point) :
  @pubkey_recovery Fixture.imports (@secp256k1 Fixture.imports)
    (@hf Fixture.imports) m rs = inr ks ->
  (List.length ks <= 4)%nat.
Proof. intros E. injection E as <-. cbn [List.length]. lia. Qed.

Lemma fixture_codec (pk : bytes) (net : str)
    (a : @address Fixture.imports) :
  @p2pkh_address Fixture.imports pk net = inr a ->
  @h160_from_address Fixture.imports a = inr (@h160 Fixture.imports pk).
Proof. intros E. injection E as <-. reflexivity. Qed.

Lemma verify_segwit_flags_raise_witness :
  (exists e,
      @_verify Fixture.imports Fixture.hello (fst Fixture.hello_signed_p2sh)
        (snd Fixture.hello_signed_p2sh) = inl e) /\
  @verify Fixture.imports Fixture.hello (fst Fixture.hello_signed_p2sh)
    (snd Fixture.hello_signed_p2sh) = false.
Proof.
  apply (@verify_segwit_flags_raise Fixture.imports Fixture.hello
           (fst Fixture.hello_signed_p2sh) (snd Fixture.hello_signed_p2sh)
           x24 (tl (snd Fixture.hello_signed))).
  - exact fixture_four.
  - reflexivity.
  - reflexivity.
  - vm_compute. split; discriminate.
Defined.

(** At that input the table of the specification accepts the signature
    and the code raises. *)
Lemma segwit_flag_36_diverges :
  @Spec._verify_by_table Fixture.imports Fixture.hello
    (fst Fixture.hello_signed_p2sh) (snd Fixture.hello_signed_p2sh) =
  inr true /\
  @_verify Fixture.imports Fixture.hello
    (fst Fixture.hello_signed_p2sh) (snd Fixture.hello_signed_p2sh) =
  inl (Exn IndexError "list index out of range").
Proof. split; vm_compute; reflexivity. Qed.

Lemma verify_msgsign_witness :
  @verify Fixture.imports Fixture.hello
    (fst Fixture.hello_signed) (snd Fixture.hello_signed) = true.
Proof.
  apply (@verify_msgsign Fixture.imports Fixture.hello 12345 true
           Fixture.mainnet).
  - exact fixture_b64.
  - exact fixture_four.
  - exact fixture_codec.
  - vm_compute. split; reflexivity.
  - vm_compute. lia.
  - vm_compute. reflexivity.
Defined.

Lemma msgsign_signature_layout_witness :
  exists (key_id r s : Z) (flag : byte) (r_bytes s_bytes magic : bytes)
         (pubkey : Point) (ks : list Point),
    @b64decode Fixture.imports (snd Fixture.hello_signed) =
    inr (flag :: r_bytes ++ s_bytes) /\
    List.length (flag :: r_bytes ++ s_bytes) = 65%nat /\
    0 <= key_id <= 3 /\
    int_of_byte flag = 27 + key_id + 4 /\
    to_bytes r 32 big = inr r_bytes /\ List.length r_bytes = 32%nat /\
    to_bytes s 32 big = inr s_bytes /\ List.length s_bytes = 32%nat /\
    @_magic_hash Fixture.imports Fixture.hello = inr magic /\
    @sign Fixture.imports (@secp256k1 Fixture.imports) (@hf Fixture.imports)
      magic 12345 = inr (r, s) /\
    @mult Fixture.imports (@secp256k1 Fixture.imports) 12345 = inr pubkey /\
    @pubkey_recovery Fixture.imports (@secp256k1 Fixture.imports)
      (@hf Fixture.imports) magic (r, s) = inr ks /\
    nth_error ks (Z.to_nat key_id) = Some pubkey /\
    (forall j, (j < Z.to_nat key_id)%nat -> nth_error ks j <> Some pubkey).
Proof.
  apply (@msgsign_signature_layout Fixture.imports Fixture.hello 12345 true
           Fixture.mainnet (fst Fixture.hello_signed)
           (snd Fixture.hello_signed)).
  - exact fixture_b64.
  - exact fixture_four.
  - vm_compute. reflexivity.
Defined.

Lemma verify_total_witness :
  @verify Fixture.imports Fixture.hello [] [x1b; x00] = false /\
  @verify Fixture.imports Fixture.hello
    (fst Fixture.hello_signed) (snd Fixture.hello_signed) = true.
Proof.
  split.
  - apply (proj1 (proj2 (@verify_total Fixture.imports Fixture.hello []
                           [x1b; x00]))
             (Exn ValueError "Wrong encoding length: 2 instead of 65")).
    reflexivity.
  - apply (proj2 (proj2 (@verify_total Fixture.imports Fixture.hello
                           (fst Fixture.hello_signed)
                           (snd Fixture.hello_signed)))).
    vm_compute. reflexivity.
Defined.

Lemma verify_requires_65_bytes_witness :
  @_verify Fixture.imports Fixture.hello [] [x1b; x00] =
  inl (Exn ValueError "Wrong encoding length: 2 instead of 65") /\
  @verify Fixture.imports Fixture.hello [] [x1b; x00] = false.
Proof.
  apply (@verify_requires_65_bytes Fixture.imports Fixture.hello []
           [x1b; x00] [x1b; x00]).
  - reflexivity.
  - cbn [List.length]. lia.
Defined.

Lemma verify_flag_26_43_witness :
  @verify Fixture.imports Fixture.hello (fst Fixture.hello_signed)
    (x1a :: tl (snd Fixture.hello_signed)) = false /\
  @verify Fixture.imports Fixture.hello (fst Fixture.hello_signed)
    (x2b :: tl (snd Fixture.hello_signed)) = false.
Proof.
  split.
  - apply (@verify_flag_26_43 Fixture.imports Fixture.hello
             (fst Fixture.hello_signed) (x1a :: tl (snd Fixture.hello_signed))
             x1a (tl (snd Fixture.hello_signed))).
    + reflexivity.
    + reflexivity.
    + left. reflexivity.
  - apply (@verify_flag_26_43 Fixture.imports Fixture.hello
             (fst Fixture.hello_signed) (x2b :: tl (snd Fixture.hello_signed))
             x2b (tl (snd Fixture.hello_signed))).
    + reflexivity.
    + reflexivity.
    + right. reflexivity.
Defined.

Lemma msgsign_not_recovered_witness :
  @msgsign Fixture.imports_missing Fixture.hello 12345 true Fixture.mainnet =
  inl (Exn ValueError "Public key not recovered") /\
  (forall msg' addr' sig' payload,
      @b64decode Fixture.imports_missing sig' = inr payload ->
      List.length payload <> 65%nat ->
      exists e,
        @_verify Fixture.imports_missing msg' addr' sig' = inl e /\
        exn_cls e = ValueError).
Proof.
  eapply (@msgsign_not_recovered Fixture.imports_missing Fixture.hello 12345
            true Fixture.mainnet).
  - vm_compute. reflexivity.
  - vm_compute. reflexivity.
  - vm_compute. reflexivity.
  - vm_compute. reflexivity.
  - vm_compute. reflexivity.
  - vm_compute. reflexivity.
  - vm_compute. split; [discriminate|reflexivity].
  - vm_compute. split; [discriminate|reflexivity].
  - intros P [<-|[<-|[<-|[<-|[]]]]]; discriminate.
Defined.

(** C8, as it is worded, fails: the error that [msgsign] raises when no
    candidate matches has the class of the error that [_verify] raises
    for a signature of two bytes, a problem of the user's input. *)
Lemma msgsign_error_kind_not_distinct :
  exists e e',
    @msgsign Fixture.imports_missing Fixture.hello 12345 true Fixture.mainnet =
    inl e /\
    @_verify Fixture.imports_missing Fixture.hello [] [x1b; x00] = inl e' /\
    exn_cls e = exn_cls e'.
Proof.
  exists (Exn ValueError "Public key not recovered"),
         (Exn ValueError "Wrong encoding length: 2 instead of 65").
  repeat split; vm_compute; reflexivity.
Qed.

End signmessageFacts.

(** ** varint: streams, edges and what [decode] accepts *)

Module varintStream.

Import PyFacts.
Import varintFacts.

(** Reading the [n] digits written in front of [rest]. *)
Lemma read_le_digits (n : nat) (i : Z) (rest : bytes) :
  read n (le_digits n i ++ rest) = (le_digits n i, rest).
Proof.
  assert (F : firstn n (le_digits n i ++ rest) = le_digits n i).
  { rewrite <- (le_digits_length n i) at 1.
    rewrite firstn_app, firstn_all, Nat.sub_diag. cbn [firstn].
    apply app_nil_r. }
  assert (S : skipn n (le_digits n i ++ rest) = rest).
  { rewrite <- (le_digits_length n i) at 1.
    rewrite skipn_app, skipn_all, Nat.sub_diag. reflexivity. }
  unfold read. now rewrite F, S.
Qed.

(** A successful [encode] has an argument in range. *)
Lemma encode_returns_range (i : Z) (b : bytes) :
  varint.encode i = inr b -> 0 <= i <= 0xffffffffffffffff.
Proof.
  intros E. destruct (Z.lt_ge_cases i 0) as [Hneg|Hpos].
  - exfalso. unfold varint.encode in E.
    destruct (Z.leb_spec i 0xfc); [|lia].
    cbn [bytes_of_ints] in E.
    destruct (Z.leb_spec 0 i); [lia|]. discriminate.
  - destruct (Z.le_gt_cases i 0xffffffffffffffff) as [Hle|Hgt]; [lia|].
    rewrite encode_too_large in E by lia. discriminate.
Qed.

(** Decoding from a stream that starts with an encoding. *)
Lemma decode_stream_after_encode (i : Z) (b rest : bytes) :
  varint.encode i = inr b ->
  varint.decode_stream (b ++ rest) = inr (i, rest).
Proof.
  intros E. pose proof (encode_returns_range i b E) as Hr.
  destruct (Z.le_gt_cases i 0xfc) as [H1|H1].
  { rewrite encode_1 in E by lia. injection E as <-.
    assert (Ei : int_of_byte (byte_of_int i) = i)
      by (rewrite int_of_byte_of_int; apply Z.mod_small; lia).
    unfold varint.decode_stream.
    cbn [app read firstn skipn bytes_getitem nth_error bind ret
         Monad_result Monad_either].
    rewrite Ei.
    destruct (Z.eqb_spec i 0xfd); [lia|].
    destruct (Z.eqb_spec i 0xfe); [lia|].
    destruct (Z.eqb_spec i 0xff); [lia|].
    reflexivity. }
  destruct (Z.le_gt_cases i 0xffff) as [H2|H2].
  { assert (Eb : b = xfd :: le_digits 2 i)
      by (rewrite encode_3 in E by lia; congruence).
    subst b.
    change (varint.decode_stream ((xfd :: le_digits 2 i) ++ rest))
      with (let '(b, stream) := read 2 (le_digits 2 i ++ rest) in
            @inr exn _ (from_bytes b little, stream)).
    rewrite read_le_digits. cbn [from_bytes].
    rewrite le_value_le_digits, Z.mod_small by lia. reflexivity. }
  destruct (Z.le_gt_cases i 0xffffffff) as [H3|H3].
  { assert (Eb : b = xfe :: le_digits 4 i)
      by (rewrite encode_5 in E by lia; congruence).
    subst b.
    change (varint.decode_stream ((xfe :: le_digits 4 i) ++ rest))
      with (let '(b, stream) := read 4 (le_digits 4 i ++ rest) in
            @inr exn _ (from_bytes b little, stream)).
    rewrite read_le_digits. cbn [from_bytes].
    rewrite le_value_le_digits, Z.mod_small by lia. reflexivity. }
  assert (Eb : b = xff :: le_digits 8 i)
    by (rewrite encode_9 in E by lia; congruence).
  subst b.
  change (varint.decode_stream ((xff :: le_digits 8 i) ++ rest))
    with (let '(b, stream) := read 8 (le_digits 8 i ++ rest) in
          @inr exn _ (from_bytes b little, stream)).
  rewrite read_le_digits. cbn [from_bytes].
  rewrite le_value_le_digits, Z.mod_small by lia. reflexivity.
Qed.

(** X1: an encoded integer followed by anything else is read back from
    the stream as that integer, and the stream is left at the first
    byte after the encoding. *)
Theorem decode_stream_encode (i : Z) (rest : bytes) :
  0 <= i <= 0xffffffffffffffff ->
  (b <- varint.encode i ;; varint.decode_stream (b ++ rest)) =
  inr (i, rest).
Proof.
  intros H.
  assert (E : exists b, varint.encode i = inr b).
  { destruct (Z.le_gt_cases i 0xfc); [rewrite encode_1 by lia; eauto|].
    destruct (Z.le_gt_cases i 0xffff); [rewrite encode_3 by lia; eauto|].
    destruct (Z.le_gt_cases i 0xffffffff);
      [rewrite encode_5 by lia; eauto|].
    rewrite encode_9 by lia; eauto. }
  destruct E as [b E]. rewrite E. cbn [bind Monad_result Monad_either].
  now apply decode_stream_after_encode.
Qed.

Lemma decode_stream_encode_witness :
  (b <- varint.encode 0x1234 ;; varint.decode_stream (b ++ [x2a; xff])) =
  inr (0x1234, [x2a; xff]).
Proof. apply (decode_stream_encode 0x1234 [x2a; xff]). lia. Defined.

(** X2: two integers with the same encoding are the same integer. *)
Theorem encode_injective (i j : Z) (b : bytes) :
  varint.encode i = inr b -> varint.encode j = inr b -> i = j.
Proof.
  intros Ei Ej.
  pose proof (decode_stream_after_encode i b [] Ei) as Di.
  pose proof (decode_stream_after_encode j b [] Ej) as Dj.
  congruence.
Qed.

Lemma encode_injective_witness : 0x1234 = 0x1234.
Proof.
  apply (encode_injective 0x1234 0x1234 [xfd; x34; x12]); reflexivity.
Defined.

(** X3: a negative integer is refused, by the construction of the
    single byte and not by the final "too large" branch. *)
Theorem encode_negative_raises (i : Z) :
  i < 0 ->
  varint.encode i =
  inl (Exn ValueError "bytes must be in range(0, 256)").
Proof.
  intros H. unfold varint.encode.
  destruct (Z.leb_spec i 0xfc); [|lia].
  cbn [bytes_of_ints].
  destruct (Z.leb_spec 0 i); [lia|]. reflexivity.
Qed.

Lemma encode_negative_raises_witness :
  varint.encode (-300) =
  inl (Exn ValueError "bytes must be in range(0, 256)").
Proof. apply (encode_negative_raises (-300)). lia. Defined.

Section Decode.

Variable bytes_from_octets : str -> result bytes.

(** X4: on [bytes], [decode] raises only when there is nothing to
    read, with an IndexError; on any other input, truncated ones
    included, it returns an integer from 0 to 0xffffffffffffffff. *)
Theorem decode_raises_only_on_empty (b : bytes) :
  match varint.decode bytes_from_octets (varint.Bytes b) with
  | inr v => b <> [] /\ 0 <= v <= 0xffffffffffffffff
  | inl e => b = [] /\ exn_cls e = IndexError
  end.
Proof.
  destruct b as [|b0 rest]; [split; reflexivity|].
  pose proof (int_of_byte_range b0) as Hb.
  assert (Hv : forall n : nat, (n <= 8)%nat ->
               0 <= le_value (firstn n rest) <= 0xffffffffffffffff).
  { intros n Hn. pose proof (le_value_range (firstn n rest)) as Hl.
    pose proof (firstn_le_length n rest) as Hlen.
    assert (256 ^ Z.of_nat (List.length (firstn n rest)) <= 256 ^ 8)
      by (apply Z.pow_le_mono_r; lia).
    change (256 ^ 8) with 0x10000000000000000 in *. lia. }
  unfold varint.decode, varint.decode_stream.
  cbn [read firstn skipn bytes_getitem nth_error bind ret Monad_result
       Monad_either fst].
  destruct (Z.eqb_spec (int_of_byte b0) 0xfd);
    [split; [discriminate|apply (Hv 2%nat); lia]|].
  destruct (Z.eqb_spec (int_of_byte b0) 0xfe);
    [split; [discriminate|apply (Hv 4%nat); lia]|].
  destruct (Z.eqb_spec (int_of_byte b0) 0xff);
    [split; [discriminate|apply (Hv 8%nat); lia]|].
  cbn [fst]. split; [discriminate|lia].
Qed.

(** X5: [decode] does not ask for the shortest form.  Every integer up
    to 0xfc is also read back from the three bytes 0xfd, i, 0, which
    [encode] never produces for it. *)
Theorem decode_accepts_longer_form (i : Z) :
  0 <= i <= 0xfc ->
  varint.decode bytes_from_octets (varint.Bytes [xfd; byte_of_int i; x00]) =
  inr i /\
  varint.decode bytes_from_octets (varint.Bytes [byte_of_int i]) = inr i /\
  varint.encode i = inr [byte_of_int i].
Proof.
  intros H.
  assert (Ei : int_of_byte (byte_of_int i) = i)
    by (rewrite int_of_byte_of_int; apply Z.mod_small; lia).
  split; [|split].
  - rewrite decode_fd. cbn [firstn le_value]. rewrite Ei.
    change (int_of_byte x00) with 0. f_equal. lia.
  - rewrite decode_small; rewrite Ei; [reflexivity|lia].
  - apply encode_1. lia.
Qed.

End Decode.

Lemma decode_accepts_longer_form_witness :
  varint.decode (fun _ => inr []) (varint.Bytes [xfd; x07; x00]) = inr 7 /\
  varint.decode (fun _ => inr []) (varint.Bytes [x07]) = inr 7 /\
  varint.encode 7 = inr [x07].
Proof. apply (decode_accepts_longer_form (fun _ => inr []) 7). lia. Defined.

End varintStream.

(** ** signmessage: the hashed payload, the P2PKH flags, address binding *)

Module signmessageMore.

Import PyFacts.
Import signmessage.
Import signmessageFacts.

Section Hashing.

Context {I : Imports}.

(** [chr] of a length below 0x110000. *)
Lemma chr_length (msg : str) :
  Z.of_nat (List.length msg) < 0x110000 ->
  chr (Z.of_nat (List.length msg)) = inr (Z.of_nat (List.length msg)).
Proof.
  intros H. unfold chr.
  destruct (Z.ltb_spec (Z.of_nat (List.length msg)) (- 0x80000000)); [lia|].
  destruct (Z.ltb_spec 0x7fffffff (Z.of_nat (List.length msg))); [lia|].
  destruct (Z.leb_spec 0 (Z.of_nat (List.length msg))); [|lia].
  destruct (Z.ltb_spec (Z.of_nat (List.length msg)) 0x110000); [|lia].
  reflexivity.
Qed.

(** X6: for a message of at most 127 characters the bytes hashed are
    the header, one byte holding the number of characters, and the
    UTF-8 bytes of the message; an encoding error of the message is
    raised as it is. *)
Theorem magic_hash_one_byte_length (msg : str) :
  (List.length msg <= 127)%nat ->
  _magic_hash msg =
  (data <- encode msg ;;
   ret (hf (prefix ++ [byte_of_int (Z.of_nat (List.length msg))] ++ data))).
Proof.
  intros Hlen. unfold _magic_hash. rewrite chr_length by lia.
  cbn [encode]. monad_step. unfold utf8_char at 1.
  destruct (Z.ltb_spec (Z.of_nat (List.length msg)) 0x80); [|lia].
  destruct (encode msg) as [e|data]; reflexivity.
Qed.

(** X7: for a message of 128 to 2047 characters the number of
    characters takes two bytes, those of its UTF-8 encoding. *)
Theorem magic_hash_two_byte_length (msg : str) :
  (128 <= List.length msg <= 2047)%nat ->
  _magic_hash msg =
  (data <- encode msg ;;
   ret (hf (prefix ++
            [byte_of_int
               (Z.lor 0xC0 (Z.shiftr (Z.of_nat (List.length msg)) 6));
             byte_of_int
               (Z.lor 0x80 (Z.land (Z.of_nat (List.length msg)) 0x3F))]
            ++ data))).
Proof.
  intros Hlen. unfold _magic_hash. rewrite chr_length by lia.
  cbn [encode]. monad_step. unfold utf8_char at 1.
  destruct (Z.ltb_spec (Z.of_nat (List.length msg)) 0x80); [lia|].
  destruct (Z.ltb_spec (Z.of_nat (List.length msg)) 0x800); [|lia].
  destruct (encode msg) as [e|data]; reflexivity.
Qed.

(** X8: a message whose number of characters falls in the surrogate
    range 0xD800..0xDFFF cannot be hashed: the length character has no
    UTF-8 encoding and [_magic_hash] raises UnicodeEncodeError. *)
Theorem magic_hash_surrogate_length (msg : str) :
  0xD800 <= Z.of_nat (List.length msg) <= 0xDFFF ->
  _magic_hash msg =
  inl (Exn UnicodeEncodeError
         "'utf-8' codec can't encode character: surrogates not allowed").
Proof.
  intros Hlen. unfold _magic_hash. rewrite chr_length by lia.
  cbn [encode]. monad_step. unfold utf8_char at 1.
  destruct (Z.ltb_spec (Z.of_nat (List.length msg)) 0x80); [lia|].
  destruct (Z.ltb_spec (Z.of_nat (List.length msg)) 0x800); [lia|].
  destruct (Z.leb_spec 0xD800 (Z.of_nat (List.length msg))); [|lia].
  destruct (Z.leb_spec (Z.of_nat (List.length msg)) 0xDFFF); [|lia].
  reflexivity.
Qed.

(** X9: a message of 0x110000 characters or more, and fewer than 2^31,
    cannot be hashed either: [chr] refuses its length with a
    ValueError. *)
Theorem magic_hash_length_beyond_unicode (msg : str) :
  0x110000 <= Z.of_nat (List.length msg) <= 0x7fffffff ->
  _magic_hash msg =
  inl (Exn ValueError "chr() arg not in range(0x110000)").
Proof.
  intros Hlen. unfold _magic_hash, chr.
  destruct (Z.ltb_spec (Z.of_nat (List.length msg)) (- 0x80000000)); [lia|].
  destruct (Z.ltb_spec 0x7fffffff (Z.of_nat (List.length msg))); [lia|].
  destruct (Z.ltb_spec (Z.of_nat (List.length msg)) 0x110000); [lia|].
  rewrite andb_false_r. reflexivity.
Qed.

End Hashing.

Section Flags.

Context {I : Imports}.

(** [_verify] on a 65-byte payload whose flag is one of the eight
    P2PKH flags. *)
Lemma _verify_p2pkh_branch (msg : str) (addr : address) (sig : b64text)
    (flag : byte) (rest magic : bytes) (ks : list Point) :
  b64decode sig = inr (flag :: rest) ->
  List.length (flag :: rest) = 65%nat ->
  27 <= int_of_byte flag <= 34 ->
  _magic_hash msg = inr magic ->
  pubkey_recovery secp256k1 hf magic
    (from_bytes (slice (flag :: rest) 1 33) big,
     from_bytes (slice_from (flag :: rest) 33) big) = inr ks ->
  _verify msg addr sig =
  (P <- getitem ks (Z.to_nat (if int_of_byte flag <? 31
                               then int_of_byte flag - 27
                               else int_of_byte flag - 31)) ;;
   pk <- octets_from_point secp256k1 P (negb (int_of_byte flag <? 31)) ;;
   a <- h160_from_address addr ;;
   ret (bytes_eqb (h160 pk) a)).
Proof.
  intros Hdec Hlen Hrf Hmagic Hrec. unfold _verify. rewrite Hdec. monad_step.
  rewrite Hlen. cbn [Nat.eqb negb]. rewrite Hmagic, Hrec.
  cbn [bytes_getitem nth_error]. monad_step.
  destruct (Z.ltb_spec (int_of_byte flag) 27); [lia|].
  destruct (Z.ltb_spec (int_of_byte flag) 35); [|lia].
  destruct (Z.ltb_spec (int_of_byte flag) 31); cbn [negb];
    (destruct (getitem ks _) as [e|P]; [reflexivity|]);
    (destruct (octets_from_point _ _ _) as [e|pk]; reflexivity).
Qed.

(** X10: with a flag from 27 to 34, [verify] accepts exactly when the
    candidate at index flag - 27 (flags 27..30, uncompressed encoding)
    or flag - 31 (flags 31..34, compressed encoding) exists, can be
    encoded, and the hash of its encoding is the hash that the address
    decodes to. *)
Theorem verify_p2pkh_accepts_iff (msg : str) (addr : address)
    (sig : b64text) (flag : byte) (rest magic : bytes) (ks : list Point) :
  b64decode sig = inr (flag :: rest) ->
  List.length (flag :: rest) = 65%nat ->
  27 <= int_of_byte flag <= 34 ->
  _magic_hash msg = inr magic ->
  pubkey_recovery secp256k1 hf magic
    (from_bytes (slice (flag :: rest) 1 33) big,
     from_bytes (slice_from (flag :: rest) 33) big) = inr ks ->
  verify msg addr sig = true <->
  exists (P : Point) (pk : bytes),
    nth_error ks (Z.to_nat (if int_of_byte flag <? 31
                            then int_of_byte flag - 27
                            else int_of_byte flag - 31)) = Some P /\
    octets_from_point secp256k1 P (negb (int_of_byte flag <? 31)) = inr pk /\
    h160_from_address addr = inr (h160 pk).
Proof.
  intros Hdec Hlen Hrf Hmagic Hrec. unfold verify.
  rewrite (_verify_p2pkh_branch msg addr sig flag rest magic ks)
    by assumption.
  unfold getitem. monad_step.
  destruct (nth_error ks _) as [P|].
  - monad_step.
    destruct (octets_from_point secp256k1 P _) as [e|pk] eqn:Hpk.
    + split; [discriminate|]. intros (P' & pk' & HP & Hpk' & _).
      injection HP as <-. congruence.
    + destruct (h160_from_address addr) as [e|a] eqn:Ha.
      * split; [discriminate|]. intros (P' & pk' & _ & _ & Ha').
        discriminate.
      * rewrite bytes_eqb_eq. split.
        -- intros <-. exists P, pk. auto.
        -- intros (P' & pk' & HP & Hpk' & Ha').
           injection HP as <-. congruence.
  - split; [discriminate|]. intros (P' & pk' & HP & _). discriminate.
Qed.

(** X11: a 65-byte payload whose flag is below 27, or is 42 or more,
    never verifies, whatever the message and the address. *)
Theorem verify_flag_outside_27_41 (msg : str) (addr : address)
    (sig : b64text) (flag : byte) (rest : bytes) :
  b64decode sig = inr (flag :: rest) ->
  List.length (flag :: rest) = 65%nat ->
  int_of_byte flag < 27 \/ 42 <= int_of_byte flag ->
  verify msg addr sig = false.
Proof.
  intros Hdec Hlen [Hrf|Hrf].
  - destruct (_verify_flag_low msg addr sig flag rest Hdec Hlen Hrf)
      as [e E].
    unfold verify. now rewrite E.
  - destruct (_verify_flag_high msg addr sig flag rest Hdec Hlen Hrf)
      as [e E].
    unfold verify. now rewrite E.
Qed.

End Flags.

Section Signing.

Context {I : Imports}.

(** X12: the key_id that [msgsign] packs into the flag is the index of
    the first recovered candidate equal to the public key. *)
Theorem msgsign_key_id_first_match (msg : str) (prvkey : Z)
    (compressed : bool) (network : str) (addr : address) (sig : b64text) :
  msgsign msg prvkey compressed network = inr (addr, sig) ->
  exists (pubkey : Point) (magic : bytes) (rs : Z * Z) (ks : list Point)
         (k : nat) (bytes_sig : bytes),
    mult secp256k1 prvkey = inr pubkey /\
    _magic_hash msg = inr magic /\
    sign secp256k1 hf magic prvkey = inr rs /\
    pubkey_recovery secp256k1 hf magic rs = inr ks /\
    nth_error ks k = Some pubkey /\
    (forall j, (j < k)%nat -> nth_error ks j <> Some pubkey) /\
    sig = b64encode
            (byte_of_int (27 + Z.of_nat k + (if compressed then 4 else 0))
             :: bytes_sig).
Proof.
  unfold msgsign. monad_step.
  destruct (mult secp256k1 prvkey) as [e|pubkey] eqn:Hmult; [discriminate|].
  destruct (octets_from_point secp256k1 pubkey compressed) as [e|pk];
    [discriminate|].
  destruct (p2pkh_address pk network) as [e|addr']; [discriminate|].
  destruct (_magic_hash msg) as [e|magic] eqn:Hmagic; [discriminate|].
  destruct (sign secp256k1 hf magic prvkey) as [e|rs] eqn:Hsign;
    [discriminate|].
  destruct (pubkey_recovery secp256k1 hf magic rs) as [e|ks] eqn:Hrec;
    [discriminate|].
  destruct (to_bytes (fst rs) 32 big) as [e|r_bytes]; [discriminate|].
  destruct (to_bytes (snd rs) 32 big) as [e|s_bytes]; [discriminate|].
  intros E. apply msgsign_loop_first in E; [|lia].
  destruct E as (k & Hk & Hmin & _ & ->). rewrite Z.add_0_l.
  exists pubkey, magic, rs, ks, k, (r_bytes ++ s_bytes).
  repeat split; try reflexivity; assumption.
Qed.

(** X13: the address that [msgsign] returns is the P2PKH address of
    the encoded public key of [prvkey]; it is the same for every
    message signed with that key, encoding and network. *)
Theorem msgsign_address_of_key (msg msg' : str) (prvkey : Z)
    (compressed : bool) (network : str) (addr addr' : address)
    (sig sig' : b64text) :
  msgsign msg prvkey compressed network = inr (addr, sig) ->
  msgsign msg' prvkey compressed network = inr (addr', sig') ->
  addr = addr' /\
  exists (pubkey : Point) (pk : bytes),
    mult secp256k1 prvkey = inr pubkey /\
    octets_from_point secp256k1 pubkey compressed = inr pk /\
    p2pkh_address pk network = inr addr.
Proof.
  intros H H'.
  destruct (msgsign_returns _ _ _ _ _ _ H)
    as (pubkey & pk & _ & _ & _ & _ & _ & _ & _ &
        Hmult & Hpk & Haddr & _).
  destruct (msgsign_returns _ _ _ _ _ _ H')
    as (pubkey' & pk' & _ & _ & _ & _ & _ & _ & _ &
        Hmult' & Hpk' & Haddr' & _).
  split.
  - assert (pubkey' = pubkey) by congruence. subst pubkey'.
    assert (pk' = pk) by congruence. subst pk'. congruence.
  - exists pubkey, pk. auto.
Qed.

(** What [_verify] computes for a signature that [msgsign] returned,
    against any address. *)
Lemma _verify_signed (msg : str) (prvkey : Z) (compressed : bool)
    (network : str) (addr : address) (sig : b64text) :
  (forall b, b64decode (b64encode b) = inr b) ->
  (forall m rs ks,
      pubkey_recovery secp256k1 hf m rs = inr ks ->
      (List.length ks <= 4)%nat) ->
  msgsign msg prvkey compressed network = inr (addr, sig) ->
  exists (pubkey : Point) (pk : bytes),
    mult secp256k1 prvkey = inr pubkey /\
    octets_from_point secp256k1 pubkey compressed = inr pk /\
    forall addr' : address,
      _verify msg addr' sig =
      (a <- h160_from_address addr' ;; ret (bytes_eqb (h160 pk) a)).
Proof.
  intros Hb64 Hfour Hsigned.
  destruct (msgsign_returns _ _ _ _ _ _ Hsigned)
    as (pubkey & pk & magic & r & s & ks & r_bytes & s_bytes & k &
        Hmult & Hpk & Haddr & Hmagic & Hsign & Hrec & Hr & Hs & Hk & Hlt & ->).
  exists pubkey, pk. split; [assumption|]. split; [assumption|].
  intros addr'.
  destruct (from_bytes_to_bytes _ _ _ _ Hr) as [Hrv Hrl].
  destruct (from_bytes_to_bytes _ _ _ _ Hs) as [Hsv Hsl].
  assert (Hk4 : (k < 4)%nat).
  { pose proof (Hfour _ _ _ Hrec).
    assert (k < List.length ks)%nat by (apply nth_error_Some; congruence).
    lia. }
  set (rf := 27 + Z.of_nat k + (if compressed then 4 else 0)).
  assert (Hrf : int_of_byte (byte_of_int rf) = rf).
  { rewrite int_of_byte_of_int. apply Z.mod_small.
    subst rf. destruct compressed; lia. }
  destruct (payload_slices (byte_of_int rf) r_bytes s_bytes Hrl) as [Sr Ss].
  rewrite (_verify_p2pkh_branch msg addr' _ (byte_of_int rf)
             (r_bytes ++ s_bytes) magic ks).
  - rewrite Hrf. subst rf. unfold getitem. destruct compressed.
    + destruct (Z.ltb_spec (27 + Z.of_nat k + 4) 31); [lia|].
      replace (Z.to_nat (27 + Z.of_nat k + 4 - 31)) with k by lia.
      rewrite Hk. monad_step. cbn [negb]. rewrite Hpk. reflexivity.
    + destruct (Z.ltb_spec (27 + Z.of_nat k + 0) 31); [|lia].
      replace (Z.to_nat (27 + Z.of_nat k + 0 - 27)) with k by lia.
      rewrite Hk. monad_step. cbn [negb]. rewrite Hpk. reflexivity.
  - apply Hb64.
  - cbn [List.length]. rewrite length_app, Hrl, Hsl. reflexivity.
  - rewrite Hrf. subst rf. destruct compressed; lia.
  - assumption.
  - rewrite Sr, Ss, Hrv, Hsv. assumption.
Qed.

(** X14: a signature that [msgsign] returned verifies, for the signed
    message, against exactly those addresses that decode to the hash
    of the signer's encoded public key.  An address that decodes to
    another hash, or does not decode, is refused. *)
Theorem verify_signed_iff_key_hash (msg : str) (prvkey : Z)
    (compressed : bool) (network : str) (addr : address) (sig : b64text) :
  (forall b, b64decode (b64encode b) = inr b) ->
  (forall m rs ks,
      pubkey_recovery secp256k1 hf m rs = inr ks ->
      (List.length ks <= 4)%nat) ->
  msgsign msg prvkey compressed network = inr (addr, sig) ->
  exists (pubkey : Point) (pk : bytes),
    mult secp256k1 prvkey = inr pubkey /\
    octets_from_point secp256k1 pubkey compressed = inr pk /\
    forall addr' : address,
      verify msg addr' sig = true <->
      h160_from_address addr' = inr (h160 pk).
Proof.
  intros Hb64 Hfour Hsigned.
  destruct (_verify_signed _ _ _ _ _ _ Hb64 Hfour Hsigned)
    as (pubkey & pk & Hmult & Hpk & Hv).
  exists pubkey, pk. split; [assumption|]. split; [assumption|].
  intros addr'. unfold verify. rewrite Hv. monad_step.
  destruct (h160_from_address addr') as [e|a].
  - split; discriminate.
  - rewrite bytes_eqb_eq. split; congruence.
Qed.

(** X15: a message that [_magic_hash] cannot hash can be neither
    signed nor verified: [msgsign] raises for every key, and [verify]
    returns [False] for every address and signature. *)
Theorem unhashable_message (msg : str) (e : exn) :
  _magic_hash msg = inl e ->
  (forall prvkey compressed network,
      exists e', msgsign msg prvkey compressed network = inl e') /\
  (forall addr sig, verify msg addr sig = false).
Proof.
  intros He. split.
  - intros prvkey compressed network. unfold msgsign. monad_step.
    destruct (mult secp256k1 prvkey) as [e1|pubkey]; [eauto|].
    destruct (octets_from_point secp256k1 pubkey compressed) as [e1|pk];
      [eauto|].
    destruct (p2pkh_address pk network) as [e1|a]; [eauto|].
    rewrite He. eauto.
  - intros addr sig. unfold verify, _verify.
    destruct (b64decode sig) as [e1|payload]; [reflexivity|]. monad_step.
    destruct (negb (List.length payload =? 65)%nat); [reflexivity|].
    rewrite He. reflexivity.
Qed.

End Signing.

(** *** Runs on the stand-in collaborators *)

Lemma magic_hash_one_byte_length_witness :
  @_magic_hash Fixture.imports Fixture.hello =
  (data <- encode Fixture.hello ;;
   ret (@hf Fixture.imports (prefix ++ [x0d] ++ data))).
Proof.
  apply (@magic_hash_one_byte_length Fixture.imports Fixture.hello).
  vm_compute. lia.
Defined.

Lemma magic_hash_two_byte_length_witness :
  @_magic_hash Fixture.imports Fixture.a200 =
  (data <- encode Fixture.a200 ;;
   ret (@hf Fixture.imports (prefix ++ [xc3; x88] ++ data))).
Proof.
  apply (@magic_hash_two_byte_length Fixture.imports Fixture.a200).
  vm_compute. lia.
Defined.

Lemma magic_hash_surrogate_length_witness :
  @_magic_hash Fixture.imports Fixture.a_surrogate_length =
  inl (Exn UnicodeEncodeError
         "'utf-8' codec can't encode character: surrogates not allowed").
Proof.
  apply (@magic_hash_surrogate_length Fixture.imports
           Fixture.a_surrogate_length).
  unfold Fixture.a_surrogate_length. rewrite repeat_length, Z2Nat.id; lia.
Defined.

Lemma magic_hash_length_beyond_unicode_witness :
  @_magic_hash Fixture.imports Fixture.a_beyond_unicode =
  inl (Exn ValueError "chr() arg not in range(0x110000)").
Proof.
  apply (@magic_hash_length_beyond_unicode Fixture.imports
           Fixture.a_beyond_unicode).
  unfold Fixture.a_beyond_unicode. rewrite repeat_length, Z2Nat.id; lia.
Defined.

Lemma verify_p2pkh_accepts_iff_witness :
  @verify Fixture.imports Fixture.hello (fst Fixture.hello_signed)
    (snd Fixture.hello_signed) = true <->
  exists (P : Point) (pk : bytes),
    nth_error Fixture.hello_candidates 1 = Some P /\
    @octets_from_point Fixture.imports Fixture.secp256k1 P true = inr pk /\
    @h160_from_address Fixture.imports (fst Fixture.hello_signed) =
    inr (@h160 Fixture.imports pk).
Proof.
  apply (@verify_p2pkh_accepts_iff Fixture.imports Fixture.hello
           (fst Fixture.hello_signed) (snd Fixture.hello_signed)
           x20 (tl (snd Fixture.hello_signed)) Fixture.hello_magic
           Fixture.hello_candidates).
  - reflexivity.
  - reflexivity.
  - vm_compute. split; discriminate.
  - vm_compute. reflexivity.
  - vm_compute. reflexivity.
Defined.

Lemma verify_flag_outside_27_41_witness :
  @verify Fixture.imports Fixture.hello (fst Fixture.hello_signed)
    (x00 :: tl (snd Fixture.hello_signed)) = false /\
  @verify Fixture.imports Fixture.hello (fst Fixture.hello_signed)
    (x2a :: tl (snd Fixture.hello_signed)) = false.
Proof.
  split.
  - apply (@verify_flag_outside_27_41 Fixture.imports Fixture.hello
             (fst Fixture.hello_signed) (x00 :: tl (snd Fixture.hello_signed))
             x00 (tl (snd Fixture.hello_signed))).
    + reflexivity.
    + reflexivity.
    + left. vm_compute. reflexivity.
  - apply (@verify_flag_outside_27_41 Fixture.imports Fixture.hello
             (fst Fixture.hello_signed) (x2a :: tl (snd Fixture.hello_signed))
             x2a (tl (snd Fixture.hello_signed))).
    + reflexivity.
    + reflexivity.
    + right. vm_compute. discriminate.
Defined.

Lemma msgsign_key_id_first_match_witness :
  exists (pubkey : Point) (magic : bytes) (rs : Z * Z) (ks : list Point)
         (k : nat) (bytes_sig : bytes),
    @mult Fixture.imports Fixture.secp256k1 12345 = inr pubkey /\
    @_magic_hash Fixture.imports Fixture.hello = inr magic /\
    @sign Fixture.imports Fixture.secp256k1 (@hf Fixture.imports) magic
      12345 = inr rs /\
    @pubkey_recovery Fixture.imports Fixture.secp256k1 (@hf Fixture.imports)
      magic rs = inr ks /\
    nth_error ks k = Some pubkey /\
    (forall j, (j < k)%nat -> nth_error ks j <> Some pubkey) /\
    snd Fixture.hello_signed =
    @b64encode Fixture.imports
      (byte_of_int (27 + Z.of_nat k + 4) :: bytes_sig).
Proof.
  apply (@msgsign_key_id_first_match Fixture.imports Fixture.hello 12345
           true Fixture.mainnet (fst Fixture.hello_signed)
           (snd Fixture.hello_signed)).
  vm_compute. reflexivity.
Defined.

Lemma msgsign_address_of_key_witness :
  fst Fixture.hello_signed = fst Fixture.hello_signed /\
  exists (pubkey : Point) (pk : bytes),
    @mult Fixture.imports Fixture.secp256k1 12345 = inr pubkey /\
    @octets_from_point Fixture.imports Fixture.secp256k1 pubkey true =
    inr pk /\
    @p2pkh_address Fixture.imports pk Fixture.mainnet =
    inr (fst Fixture.hello_signed).
Proof.
  apply (@msgsign_address_of_key Fixture.imports Fixture.hello Fixture.a200
           12345 true Fixture.mainnet (fst Fixture.hello_signed)
           (fst Fixture.hello_signed) (snd Fixture.hello_signed)
           (snd (match @msgsign Fixture.imports Fixture.a200 12345 true
                         Fixture.mainnet with
                 | inr out => out
                 | inl _ => ([], [])
                 end))).
  - vm_compute. reflexivity.
  - vm_compute. reflexivity.
Defined.

Lemma verify_signed_iff_key_hash_witness :
  exists (pubkey : Point) (pk : bytes),
    @mult Fixture.imports Fixture.secp256k1 12345 = inr pubkey /\
    @octets_from_point Fixture.imports Fixture.secp256k1 pubkey true =
    inr pk /\
    forall addr' : @address Fixture.imports,
      @verify Fixture.imports Fixture.hello addr'
        (snd Fixture.hello_signed) = true <->
      @h160_from_address Fixture.imports addr' =
      inr (@h160 Fixture.imports pk).
Proof.
  apply (@verify_signed_iff_key_hash Fixture.imports Fixture.hello 12345
           true Fixture.mainnet (fst Fixture.hello_signed)
           (snd Fixture.hello_signed)).
  - exact fixture_b64.
  - exact fixture_four.
  - vm_compute. reflexivity.
Defined.

Lemma unhashable_message_witness :
  (forall prvkey compressed network,
      exists e',
        @msgsign Fixture.imports Fixture.a_beyond_unicode prvkey compressed
          network = inl e') /\
  (forall addr sig,
      @verify Fixture.imports Fixture.a_beyond_unicode addr sig = false).
Proof.
  apply (@unhashable_message Fixture.imports Fixture.a_beyond_unicode
           (Exn ValueError "chr() arg not in range(0x110000)")).
  unfold _magic_hash, chr, Fixture.a_beyond_unicode.
  rewrite repeat_length, Z2Nat.id by lia. reflexivity.
Defined.

End signmessageMore.
